(** * call-repeat: the pairing core of [repeat_final.py]

    A shallow embedding of [process_excel] (src/call_repeat/repeat_final.py,
    lines 12-105) and the properties of its four stages: header cleaning
    and column check, normalisation and filtering, adjacency pairing per
    caller, and the export of the paired rows.

    Conventions of the embedding.
    - A Python [str] is the list of its Unicode code points ([pystr]).
      Literals are written in UTF-8 and decoded by [u].
    - A spreadsheet cell read with [dtype=str] is either a string or the
      missing value NaN: [cell := option pystr].
    - A [DataFrame] is its column labels and its rows, each row a list of
      cells in column order.  The embedding is that of a table whose
      cleaned labels are distinct: a label is then the name of one
      column, and [df.iloc[i].to_dict()] put back under the same labels
      (lines 92-94) is the row at position [i].  With a label that occurs
      twice pandas selects a table instead of a column and the run stops
      in lines 41-60, or writes one value under both labels; what is
      stated below about the outcome of a run past the column check
      therefore assumes [NoDup] of the cleaned header.
    - [pd.to_datetime(..., errors="coerce")] belongs to pandas, not to this
      repository: it is an interface ([DatetimeParser]) mapping a column to
      a column of the same length of timestamps (nanoseconds, [Z]) or NaT
      ([None]).  The difference of two timestamps is taken in [Z]; pandas
      holds it in 64 bits and raises beyond them at line 73, so what is
      stated below about the outcome of a run past the time parsing
      assumes that the differences of the parsed start times are in
      range ([deltas_in_range]).
    - [raise ValueError(msg)] is the [Err] result; the two output files
      exist only in an [Ok] result. *)

From Stdlib Require Import String Ascii ZArith NArith List Sorted Permutation Lia.
From stdpp Require Import base tactics option numbers sets sorting list.

(* ================================================================== *)
(** ** Python strings *)
(* ================================================================== *)

Abbreviation pystr := (list N).

(** UTF-8 decoding of a literal (well-formed input; a truncated sequence
    is dropped). *)
Fixpoint utf8_decode (bs : list N) : pystr :=
  match bs with
  | [] => []
  | b0 :: r0 =>
    if (b0 <? 128)%N then b0 :: utf8_decode r0 else
    match r0 with
    | [] => []
    | b1 :: r1 =>
      if (b0 <? 224)%N then ((b0 - 192) * 64 + (b1 - 128))%N :: utf8_decode r1 else
      match r1 with
      | [] => []
      | b2 :: r2 =>
        if (b0 <? 240)%N
        then ((b0 - 224) * 4096 + (b1 - 128) * 64 + (b2 - 128))%N :: utf8_decode r2
        else
        match r2 with
        | [] => []
        | b3 :: r3 =>
          ((b0 - 240) * 262144 + (b1 - 128) * 4096 + (b2 - 128) * 64 + (b3 - 128))%N
            :: utf8_decode r3
        end
      end
    end
  end.

Definition u (s : string) : pystr :=
  utf8_decode (map N_of_ascii (list_ascii_of_string s)).

(** [str.isspace] of one character, which is also what [\s] matches in a
    [str] pattern: U+0009..000D, U+001C..0020, U+0085, U+00A0, U+1680,
    U+2000..200A, U+2028, U+2029, U+202F, U+205F, U+3000. *)
Definition isspace (c : N) : bool :=
  ((9 <=? c) && (c <=? 13) || (28 <=? c) && (c <=? 32)
   || (c =? 133) || (c =? 160) || (c =? 5760)
   || (8192 <=? c) && (c <=? 8202)
   || (c =? 8232) || (c =? 8233) || (c =? 8239) || (c =? 8287)
   || (c =? 12288))%N.

(** [s.replace(old, new)] for one-character [old] and [new]. *)
Definition replace_char (old new : N) (s : pystr) : pystr :=
  map (λ c, if (c =? old)%N then new else c) s.

(** [s.replace(old, "")] for a one-character [old]. *)
Definition remove_char (old : N) (s : pystr) : pystr :=
  filter (λ c, c ≠ old) s.

Fixpoint lstrip (s : pystr) : pystr :=
  match s with
  | [] => []
  | c :: r => if isspace c then lstrip r else s
  end.

Definition rstrip (s : pystr) : pystr := reverse (lstrip (reverse s)).

(** [s.strip()] *)
Definition strip (s : pystr) : pystr := rstrip (lstrip s).

(** [re.sub(r"\s+", "", s)]: every maximal run of whitespace is deleted,
    that is, every whitespace character. *)
Definition remove_whitespace (s : pystr) : pystr :=
  filter (λ c, isspace c = false) s.

(** The character class [[A-Za-z：: ]] of line 41 (Latin letters, the
    full-width colon U+FF1A, the colon and the space). *)
Definition prefix_char (c : N) : bool :=
  ((65 <=? c) && (c <=? 90) || (97 <=? c) && (c <=? 122)
   || (c =? 65306) || (c =? 58) || (c =? 32))%N.

(** [re.sub(r"^[A-Za-z：: ]+", "", s)]: the pattern is anchored at the
    start, so only the longest leading run of the class is deleted. *)
Fixpoint strip_prefix (s : pystr) : pystr :=
  match s with
  | [] => []
  | c :: r => if prefix_char c then strip_prefix r else s
  end.

(** [str.lower] on the Latin capitals.  No other code point lowers to a
    string containing [a] or [n], so the comparison of [s.lower()] with
    ["nan"] on line 46 is the comparison of [lower s] with ["nan"]. *)
Definition lower (s : pystr) : pystr :=
  map (λ c, if ((65 <=? c) && (c <=? 90))%N then (c + 32)%N else c) s.

(** Lexicographic order of code points: Python's [<=] on [str]. *)
Fixpoint pystr_leb (s t : pystr) : bool :=
  match s, t with
  | [], _ => true
  | _ :: _, [] => false
  | a :: s', b :: t' =>
    if (a <? b)%N then true else if (a =? b)%N then pystr_leb s' t' else false
  end.

(** [repr] of a string of printable characters without quote or
    backslash, and of a list of such strings. *)
Definition repr_str (s : pystr) : pystr := u "'" ++ s ++ u "'".

Fixpoint join (sep : pystr) (l : list pystr) : pystr :=
  match l with
  | [] => []
  | [s] => s
  | s :: l' => s ++ sep ++ join sep l'
  end.

Definition repr_list (l : list pystr) : pystr :=
  u "[" ++ join (u ", ") (map repr_str l) ++ u "]".

(* ================================================================== *)
(** ** Constants *)
(* ================================================================== *)

Definition EXCLUDE_GROUP : pystr := Eval vm_compute in u "线上运营组".
Definition TIME_WINDOW_HOURS : Z := 24.

Definition COL_START : pystr := Eval vm_compute in u "开始时间".
Definition COL_CALLER : pystr := Eval vm_compute in u "主叫号码".
Definition COL_ANSWERED : pystr := Eval vm_compute in u "接听技能组".
Definition COL_INBOUND : pystr := Eval vm_compute in u "呼入技能组".
Definition COL_EXT : pystr := Eval vm_compute in u "坐席分机".
Definition COL_NAME : pystr := Eval vm_compute in u "坐席姓名".

Definition REQUIRED_COLS : list pystr :=
  [COL_START; COL_CALLER; COL_ANSWERED; COL_INBOUND; COL_EXT; COL_NAME].

(** The four categorical columns, in the order of the loop of line 44. *)
Definition CATEGORICAL_COLS : list pystr :=
  [COL_INBOUND; COL_ANSWERED; COL_EXT; COL_NAME].

Definition LABEL_CROSS : pystr := Eval vm_compute in u "跨组".
Definition LABEL_SAME : pystr := Eval vm_compute in u "没跨组".

(** [pd.Timedelta(hours=h)] in nanoseconds. *)
Definition Timedelta_hours (h : Z) : Z := (h * 3600 * 1000000000)%Z.

(** The largest [pd.Timestamp] and [pd.Timedelta], in nanoseconds:
    [2^63 - 1]; the smallest ones are the opposite. *)
Definition NS_MAX : Z := 9223372036854775807.

(* ================================================================== *)
(** ** Tables and results *)
(* ================================================================== *)

(** A cell of a table read with [dtype=str]: a string, or NaN ([None]). *)
Abbreviation cell := (option pystr).

Abbreviation row := (list cell).

Record DataFrame := mkDataFrame {
  columns : list pystr;
  values : list row
}.

(** [x.astype(str)] and [str(x)] on a cell: NaN prints as ["nan"]. *)
Definition astype_str (c : cell) : pystr :=
  match c with
  | Some s => s
  | None => u "nan"
  end.

(** Position of a label in the header (the first one). *)
Fixpoint get_loc (c : pystr) (cols : list pystr) : option nat :=
  match cols with
  | [] => None
  | c' :: cols' => if decide (c = c') then Some 0 else S <$> get_loc c cols'
  end.

(** [r[c]]: the cell of row [r] under label [c]. *)
Definition getcol (cols : list pystr) (c : pystr) (r : row) : cell :=
  match get_loc c cols with
  | Some i => default None (r !! i)
  | None => None
  end.

Definition setcol (cols : list pystr) (c : pystr) (v : cell) (r : row) : row :=
  match get_loc c cols with
  | Some i => <[i:=v]> r
  | None => r
  end.

(** [df[c] = f(df[c])] for an elementwise [f], the label [c] naming one
    column. *)
Definition assign (cols : list pystr) (c : pystr) (f : cell → cell)
    (rows : list row) : list row :=
  map (λ r, setcol cols c (f (getcol cols c r)) r) rows.

Inductive error :=
  | ValueError (msg : pystr)
  | IndexError.

Inductive result (A : Type) :=
  | Ok (a : A)
  | Err (e : error).
Arguments Ok {A} a.
Arguments Err {A} e.

(** The error monad of a run, with stdpp's [x ← m; k] notation. *)
#[global] Instance result_bind : MBind result := λ A B k m,
  match m with
  | Ok a => k a
  | Err e => Err e
  end.

#[global] Instance result_ret : MRet result := λ A a, Ok a.

(** What one successful run leaves behind: the two files and the
    returned pair of counts. *)
Record Output := mkOutput {
  out_nc : DataFrame;   (* 重复来电_没跨组.xlsx *)
  out_c : DataFrame;    (* 重复来电_跨组.xlsx *)
  ret : nat * nat
}.

(** [pd.to_datetime(column, errors="coerce")]. *)
Class DatetimeParser := {
  to_datetime : list cell → list (option Z);
  to_datetime_length : ∀ l, length (to_datetime l) = length l
}.

(* ================================================================== *)
(** ** Stage 1: header cleaning and the required columns (lines 26-37) *)
(* ================================================================== *)

Definition _clean_col (c : pystr) : pystr :=
  let s := replace_char 160 32 (replace_char 12288 32 c) in
  let s := remove_char 10 (remove_char 13 s) in
  strip s.

Definition missing_cols (cols : list pystr) : list pystr :=
  filter (λ c, c ∉ cols) REQUIRED_COLS.

Definition schema_message (missing : list pystr) : pystr :=
  u "Excel 缺少必需列：" ++ repr_list missing ++ [10%N]
    ++ u "必须包含：" ++ repr_list REQUIRED_COLS.

Definition check_columns (cols : list pystr) : result unit :=
  let missing := missing_cols cols in
  if decide (missing = []) then Ok tt
  else Err (ValueError (schema_message missing)).

(* ================================================================== *)
(** ** Stage 2: normalisation and filtering (lines 39-55) *)
(* ================================================================== *)

(** Line 41, on one cell of the caller column. *)
Definition normalize_caller (c : cell) : cell :=
  Some (strip (strip_prefix (astype_str c))).

(** Line 45, on one cell of a categorical column. *)
Definition squeeze (c : cell) : cell :=
  Some (remove_whitespace (astype_str c)).

(** Line 46: [x.where(x.str.lower() != "nan", "")].  The column holds
    strings at this point; [.str.lower()] of NaN is NaN, which differs
    from ["nan"]. *)
Definition blank_nan (c : cell) : cell :=
  match c with
  | Some s => if decide (lower s = u "nan") then Some [] else Some s
  | None => None
  end.

Definition normalize_col (cols : list pystr) (rows : list row) (c : pystr)
    : list row :=
  assign cols c blank_nan (assign cols c squeeze rows).

Definition normalize (cols : list pystr) (rows : list row) : list row :=
  foldl (normalize_col cols) (assign cols COL_CALLER normalize_caller rows)
        CATEGORICAL_COLS.

(** The mask of lines 50-54: [x != ""] is true of NaN as well. *)
Definition keep (cols : list pystr) (r : row) : bool :=
  bool_decide (getcol cols COL_INBOUND r ≠ Some [])
  && bool_decide (getcol cols COL_ANSWERED r ≠ Some [])
  && bool_decide (getcol cols COL_EXT r ≠ Some [])
  && bool_decide (getcol cols COL_NAME r ≠ Some [])
  && bool_decide (getcol cols COL_INBOUND r ≠ Some EXCLUDE_GROUP).

Definition filter_rows (cols : list pystr) (rows : list row) : list row :=
  filter (λ r, keep cols r) rows.

(* ================================================================== *)
(** ** Stage 3: time parsing, sorting and pairing (lines 57-77) *)
(* ================================================================== *)

(** A row of [df_proc]: the cells of the row of [df_str], its parsed
    start time and its position in [df_str] ([_rowid]). *)
Record ProcRow := mkProcRow {
  p_cells : row;
  p_time : Z;
  p_rowid : nat
}.

Definition time_message : pystr :=
  u "存在无法解析的‘开始时间’，请检查时间格式。".

(** Stable sort by insertion ([kind="stable"]): an element goes before
    the first element of the sorted tail that it does not exceed, so
    equal keys keep their order. *)
Fixpoint insert_by {A} (le : A → A → bool) (x : A) (l : list A) : list A :=
  match l with
  | [] => [x]
  | y :: l' => if le x y then x :: l else y :: insert_by le x l'
  end.

Fixpoint sort_by {A} (le : A → A → bool) (l : list A) : list A :=
  match l with
  | [] => []
  | x :: l' => insert_by le x (sort_by le l')
  end.

(** A pair of line 77: (label, rowid of A, rowid of B). *)
Definition Pair : Type := pystr * nat * nat.

Definition label (p : Pair) : pystr := p.1.1.
Definition rid_a (p : Pair) : nat := p.1.2.
Definition rid_b (p : Pair) : nat := p.2.

(** [groupby(key, sort=False)]: the groups in the order of the first
    appearance of their key, the rows of a group in table order. *)
Fixpoint add_to_group {A} (k : pystr) (x : A) (gs : list (pystr * list A))
    : list (pystr * list A) :=
  match gs with
  | [] => [(k, [x])]
  | (k', g) :: gs' =>
    if decide (k = k') then (k', g ++ [x]) :: gs'
    else (k', g) :: add_to_group k x gs'
  end.

Definition groupby {A} (key : A → pystr) (l : list A) : list (pystr * list A) :=
  foldl (λ gs x, add_to_group (key x) x gs) [] l.

Section Pairing.
Context `{DatetimeParser}.
Variable cols : list pystr.

(** Lines 58-62: the processing copy, or the time-parse error; the
    start-time label names one column. *)
Definition make_proc (rows : list row) : result (list ProcRow) :=
  match mapM id (to_datetime (map (getcol cols COL_START) rows)) with
  | None => Err (ValueError time_message)
  | Some ts =>
    Ok (imap (λ i rt, mkProcRow rt.1 rt.2 i) (zip rows ts))
  end.

Definition caller (a : ProcRow) : pystr :=
  astype_str (getcol cols COL_CALLER (p_cells a)).

Definition le_time (a b : ProcRow) : bool := (p_time a <=? p_time b)%Z.

(** The order of [sort_values(["主叫号码", "开始时间"])]. *)
Definition le_caller_time (a b : ProcRow) : bool :=
  if decide (caller a = caller b) then le_time a b
  else pystr_leb (caller a) (caller b).

(** Line 73, for a difference in the range of [pd.Timedelta]. *)
Definition within_window (a b : ProcRow) : bool :=
  (p_time b - p_time a <=? Timedelta_hours TIME_WINDOW_HOURS)%Z.

(** Line 76. *)
Definition cross (a b : ProcRow) : bool :=
  bool_decide (astype_str (getcol cols COL_ANSWERED (p_cells a))
               ≠ astype_str (getcol cols COL_INBOUND (p_cells b))).

(** Lines 74-77. *)
Definition make_pair (a b : ProcRow) : Pair :=
  (if cross a b then LABEL_CROSS else LABEL_SAME, p_rowid a, p_rowid b).

(** The inner loop, lines 70-77, on one sorted group. *)
Definition pair_group (g : list ProcRow) : list Pair :=
  flat_map (λ i,
    match g !! i, g !! (i + 1) with
    | Some a, Some b => if within_window a b then [make_pair a b] else []
    | _, _ => []
    end) (seq 0 (length g - 1)).

(** Lines 63-77. *)
Definition make_pairs (df_proc : list ProcRow) : list Pair :=
  let df_proc := sort_by le_caller_time df_proc in
  flat_map (λ kg, pair_group (sort_by le_time kg.2)) (groupby caller df_proc).

(* ---------------------------------------------------------------- *)
(** ** Stage 4: export (lines 79-105) *)
(* ---------------------------------------------------------------- *)

(** [df_str.iloc[i]] *)
Definition iloc (rows : list row) (i : nat) : result row :=
  match rows !! i with
  | Some r => Ok r
  | None => Err IndexError
  end.

(** Lines 89-94: under distinct labels the dict of a row, read back
    in the order of the labels, is the row. *)
Fixpoint pairs_to_original_rows (df_str : list row) (pairs_subset : list Pair)
    : result (list row) :=
  match pairs_subset with
  | [] => Ok []
  | p :: ps =>
    a ← iloc df_str (rid_a p);
    b ← iloc df_str (rid_b p);
    rest ← pairs_to_original_rows df_str ps;
    Ok (a :: b :: rest)
  end.

Definition export (df_str : list row) (pairs : list Pair) : result Output :=
  let orig_cols := cols in
  if decide (pairs = []) then
    Ok (mkOutput (mkDataFrame orig_cols []) (mkDataFrame orig_cols []) (0, 0))
  else
    let pairs_nc := filter (λ p, label p = LABEL_SAME) pairs in
    let pairs_c := filter (λ p, label p = LABEL_CROSS) pairs in
    df_nc_only ← pairs_to_original_rows df_str pairs_nc;
    df_c_only ← pairs_to_original_rows df_str pairs_c;
    Ok (mkOutput (mkDataFrame orig_cols df_nc_only)
                 (mkDataFrame orig_cols df_c_only)
                 (length pairs_nc, length pairs_c)).

(** Lines 39-105, on the table with cleaned, checked header. *)
Definition process_rows (rows : list row) : result Output :=
  let df_str := filter_rows cols (normalize cols rows) in
  df_proc ← make_proc df_str;
  export df_str (make_pairs df_proc).
End Pairing.

(** [process_excel], from the table that [pd.read_excel(input_path,
    header=1, dtype=str)] returns to the files written and the counts
    returned. *)
Definition process_excel `{DatetimeParser} (df : DataFrame) : result Output :=
  let cols := map _clean_col (columns df) in
  _ ← check_columns cols;
  process_rows cols (values df).

(* ================================================================== *)
(** ** A parser for the examples: the ISO fragment of [to_datetime] *)
(* ================================================================== *)

(** On a column whose cells all read [YYYY-MM-DD HH:MM:SS],
    [pd.to_datetime] returns the timestamps computed here, NaT for a
    date that does not exist or lies outside the range of
    [pd.Timestamp]; every other cell is NaT in this instance. *)
Module Iso.
Definition digit (c : N) : option Z :=
  if ((48 <=? c) && (c <=? 57))%N then Some (Z.of_N c - 48)%Z else None.

Definition two (a b : N) : option Z :=
  x ← digit a; y ← digit b; Some (10 * x + y)%Z.

Definition leap (y : Z) : bool :=
  ((y mod 4 =? 0) && negb (y mod 100 =? 0) || (y mod 400 =? 0))%Z.

Definition days_in_month (y m : Z) : Z :=
  if (m =? 2)%Z then (if leap y then 29 else 28)
  else if ((m =? 4) || (m =? 6) || (m =? 9) || (m =? 11))%Z then 30 else 31.

(** Days since 1970-01-01 of a date of the proleptic Gregorian
    calendar. *)
Definition days_from_civil (y m d : Z) : Z :=
  let y := if (m <=? 2)%Z then (y - 1)%Z else y in
  let era := (y / 400)%Z in
  let yoe := (y - era * 400)%Z in
  let mp := if (m >? 2)%Z then (m - 3)%Z else (m + 9)%Z in
  let doy := ((153 * mp + 2) / 5 + d - 1)%Z in
  let doe := (yoe * 365 + yoe / 4 - yoe / 100 + doy)%Z in
  (era * 146097 + doe - 719468)%Z.

Definition parse (c : cell) : option Z :=
  match c with
  | Some [y1; y2; y3; y4; 45; m1; m2; 45; d1; d2; 32;
          h1; h2; 58; n1; n2; 58; s1; s2]%N =>
    yh ← two y1 y2; yl ← two y3 y4;
    m ← two m1 m2; d ← two d1 d2;
    hh ← two h1 h2; mm ← two n1 n2; ss ← two s1 s2;
    let y := (100 * yh + yl)%Z in
    if ((1 <=? m) && (m <=? 12) && (1 <=? d) && (d <=? days_in_month y m)
        && (hh <? 24) && (mm <? 60) && (ss <? 60))%Z
    then
      let ns := ((((days_from_civil y m d * 24 + hh) * 60 + mm) * 60 + ss)
                 * 1000000000)%Z in
      if ((- NS_MAX <=? ns) && (ns <=? NS_MAX))%Z then Some ns else None
    else None
  | _ => None
  end.

#[export] Program Instance parser : DatetimeParser :=
  {| to_datetime := map parse |}.
Next Obligation. intros l. apply length_map. Qed.
End Iso.

(* ================================================================== *)
(** ** Vocabulary of the properties *)
(* ================================================================== *)

(** The window of line 73, in nanoseconds. *)
Definition W : Z := Timedelta_hours TIME_WINDOW_HOURS.

(** The difference of any two parsed times of a column is a
    [pd.Timedelta]: none exceeds [NS_MAX], in either direction. *)
Definition deltas_in_range (times : list (option Z)) : bool :=
  forallb (λ x,
    forallb (λ y,
      match x, y with
      | Some t1, Some t2 => (t2 - t1 <=? NS_MAX)%Z
      | _, _ => true
      end) times) times.

(** The parsed start times of the rows that survive the filter. *)
Definition surviving_times `{DatetimeParser} (cols : list pystr)
    (rows : list row) : list (option Z) :=
  to_datetime (map (getcol cols COL_START)
                   (filter_rows cols (normalize cols rows))).

(** The normalisation of lines 41-46, seen on one row. *)
Definition normalize_cell (c : cell) : cell := blank_nan (squeeze c).

Definition normalize_step (cols : list pystr) (r : row) (c : pystr) : row :=
  let r := setcol cols c (squeeze (getcol cols c r)) r in
  setcol cols c (blank_nan (getcol cols c r)) r.

Definition normalize_row (cols : list pystr) (r : row) : row :=
  foldl (normalize_step cols)
        (setcol cols COL_CALLER (normalize_caller (getcol cols COL_CALLER r)) r)
        CATEGORICAL_COLS.

(** The text that lines 45-46 leave in a categorical cell. *)
Definition clean_text (c : cell) : pystr :=
  let s := remove_whitespace (astype_str c) in
  if decide (lower s = u "nan") then [] else s.

(** [s] neither starts nor ends with whitespace. *)
Definition trimmed (s : pystr) : Prop :=
  (∀ c, head s = Some c → isspace c = false)
  ∧ (∀ c, last s = Some c → isspace c = false).

(** The four characters that [_clean_col] replaces or deletes. *)
Definition header_noise (c : N) : Prop := c ∈ [12288%N; 160%N; 13%N; 10%N].

(** Strictly before, in the order of Python's [<] on [str]. *)
Definition pystr_lt (s t : pystr) : Prop := pystr_leb s t = true ∧ s ≠ t.

(** [s] occurs in [t]. *)
Definition infix_of (s t : pystr) : Prop := ∃ l1 l2, t = l1 ++ s ++ l2.

(** What [groupby] maintains while it scans the table. *)
Definition grouped {A} (key : A → pystr) (gs : list (pystr * list A))
    (l : list A) : Prop :=
  NoDup gs.*1
  ∧ (∀ k g, (k, g) ∈ gs → g ≠ [] ∧ g = filter (λ x, key x = k) l)
  ∧ (∀ x, x ∈ l → key x ∈ gs.*1).

Section Vocabulary.
Variable cols : list pystr.

(** The text of a field of a row. *)
Definition field (c : pystr) (r : row) : pystr := astype_str (getcol cols c r).

(** The caller of a row of [df_str]. *)
Definition caller_of (r : row) : pystr := field COL_CALLER r.

(** The group that answered call A, the group call B came in on. *)
Definition answered_group (a : ProcRow) : pystr :=
  astype_str (getcol cols COL_ANSWERED (p_cells a)).
Definition inbound_group (b : ProcRow) : pystr :=
  astype_str (getcol cols COL_INBOUND (p_cells b)).

(** The condition of lines 50-54 on the fields of a row. *)
Definition survives (r : row) : Prop :=
  field COL_INBOUND r ≠ [] ∧ field COL_ANSWERED r ≠ []
  ∧ field COL_EXT r ≠ [] ∧ field COL_NAME r ≠ []
  ∧ field COL_INBOUND r ≠ EXCLUDE_GROUP.

#[global] Instance survives_dec r : Decision (survives r).
Proof. unfold survives. apply _. Defined.

(** The outcome of a run without pairs (lines 84-87). *)
Definition empty_output : Output :=
  mkOutput (mkDataFrame cols []) (mkDataFrame cols []) (0, 0).

(** The candidate of position [i]: what one turn of the loop of lines
    70-77 appends. *)
Definition candidate (g : list ProcRow) (i : nat) : list Pair :=
  match g !! i, g !! (i + 1) with
  | Some a, Some b => if within_window a b then [make_pair cols a b] else []
  | _, _ => []
  end.

(** The caller partitions that the loop of line 68 visits. *)
Definition groups (df_proc : list ProcRow) : list (pystr * list ProcRow) :=
  groupby (caller cols) (sort_by (le_caller_time cols) df_proc).
End Vocabulary.

(* ================================================================== *)
(** ** Tables of the examples *)
(* ================================================================== *)

Module Tables.
#[local] Existing Instance Iso.parser.

Definition cols : list pystr := REQUIRED_COLS ++ [u "备注"].

(** The header of the examples: the six required labels, the first
    two with a space, a line break and a full-width space to clean,
    and a free-text column. *)
Definition header : list pystr :=
  [[32%N] ++ COL_START ++ [10%N]; COL_CALLER ++ [12288%N]; COL_ANSWERED;
   COL_INBOUND; COL_EXT; COL_NAME; u "备注"].

(** One call: start time, caller, answered group, inbound group,
    extension, agent, remark. *)
Definition call (t c a i e n x : string) : row :=
  [Some (u t); Some (u c); Some (u a); Some (u i); Some (u e); Some (u n);
   Some (u x)].

Definition df_str_of (df : DataFrame) : list row :=
  filter_rows cols (normalize cols (values df)).

Definition df_proc_of (df : DataFrame) : list ProcRow :=
  match make_proc cols (df_str_of df) with
  | Ok d => d
  | Err _ => []
  end.

(** Three calls of one caller within two hours, out of time order,
    and a call of another caller. *)
Definition three_calls : DataFrame :=
  mkDataFrame header
    [ call "2024-03-01 12:00:00" "13800000000" "A" "A" "801" "Li" "";
      call "2024-03-01 10:00:00" "13800000000" "A" "A" "801" "Li" "";
      call "2024-03-01 10:30:00" "13900000000" "A" "A" "802" "Wu" "";
      call "2024-03-01 11:00:00" "13800000000" "B" "A" "801" "Li" "" ].

Definition caller_138 : pystr := u "13800000000".

Definition partition_138 : list ProcRow :=
  filter (λ a, caller cols a = caller_138)
         (sort_by (le_caller_time cols) (df_proc_of three_calls)).

(** Scenario A of the specification: calls at t0, t0 + 1 h and
    t0 + 30 h give the one pair (t0, t0 + 1 h). *)
Definition scenario_a : DataFrame :=
  mkDataFrame header
    [ call "2024-03-01 10:00:00" "13800000000" "A" "A" "801" "Li" "";
      call "2024-03-01 11:00:00" "13800000000" "A" "A" "801" "Li" "";
      call "2024-03-02 16:00:00" "13800000000" "A" "A" "801" "Li" "" ].

(** The boundary of the window, through the whole run. *)
Definition exactly_24h : DataFrame :=
  mkDataFrame header
    [ call "2024-03-01 10:00:00" "13800000000" "A" "A" "801" "Li" "";
      call "2024-03-02 10:00:00" "13800000000" "A" "A" "801" "Li" "" ].

Definition one_second_more : DataFrame :=
  mkDataFrame header
    [ call "2024-03-01 10:00:00" "13800000000" "A" "A" "801" "Li" "";
      call "2024-03-02 10:00:01" "13800000000" "A" "A" "801" "Li" "" ].

(** Two calls of one caller an hour apart; the first has a prefixed
    caller number and a space in its answered group. *)
Definition prefixed : DataFrame :=
  mkDataFrame header
    [ call "2024-03-01 10:00:00" "TEL:13800000000" "A B" "A" "801" "Li" "x y";
      call "2024-03-01 11:00:00" "13800000000" "A" "AB" "801" "Li" " z" ].

(** Scenario B: a call without agent name (only a space) is dropped, and
    its neighbours in time are paired with each other. *)
Definition scenario_b : DataFrame :=
  mkDataFrame header
    [ call "2024-03-01 10:00:00" "13800000000" "A" "A" "801" "Li" "";
      call "2024-03-01 10:30:00" "13800000000" "A" "A" "801" " " "";
      call "2024-03-01 11:00:00" "13800000000" "A B" "A" "801" "Li" "";
      call "2024-03-01 11:30:00" "13800000000" "A" "AB" "801" "Li" "" ].

(** Scenario C: every call came in on the excluded group. *)
Definition scenario_c : DataFrame :=
  mkDataFrame header
    [ call "2024-03-01 10:00:00" "13800000000" "A" "线上运营组" "801" "Li" "";
      call "2024-03-01 10:30:00" "13800000000" "A" "线上运营组" "801" "Li" "" ].

(** A table without start time and agent name. *)
Definition no_start_no_name : DataFrame :=
  mkDataFrame [COL_CALLER; COL_ANSWERED; COL_INBOUND; COL_EXT] [].

(** A table whose second call has no readable start time. *)
Definition bad_time : DataFrame :=
  mkDataFrame header
    [ call "2024-03-01 10:00:00" "13800000000" "A" "A" "801" "Li" "";
      call "yesterday" "13800000000" "A" "A" "801" "Li" "" ].

(** Two callers; the calls of the first one start at the same second. *)
Definition tied_calls : DataFrame :=
  mkDataFrame header
    [ call "2024-03-01 10:00:00" "13900000000" "A" "A" "802" "Wu" "";
      call "2024-03-01 09:00:00" "TEL:13800000000" "A" "B" "801" "Li" "first";
      call "2024-03-01 09:00:00" "13800000000" "A" "A" "801" "Li" "second";
      call "2024-03-01 10:30:00" "13900000000" "A" "A" "802" "Wu" "" ].
End Tables.

(* ================================================================== *)
(** ** Lists: flattening, stable sorting, grouping *)
(* ================================================================== *)

Lemma elem_of_flat_map {A B} (f : A → list B) (l : list A) (y : B) :
  y ∈ flat_map f l ↔ ∃ x, x ∈ l ∧ y ∈ f x.
Proof.
  rewrite list_elem_of_In, in_flat_map.
  split; intros (x & Hx & Hy); exists x.
  - by rewrite !list_elem_of_In.
  - by rewrite <- !list_elem_of_In.
Qed.

Lemma length_flat_map_le {A B} (f : A → list B) (l : list A) :
  (∀ x, length (f x) ≤ 1) → length (flat_map f l) ≤ length l.
Proof.
  intros Hf. induction l as [|x l IH]; simpl; [lia|].
  rewrite length_app. specialize (Hf x). lia.
Qed.

Lemma filter_none {A} (P : A → Prop) `{!∀ x, Decision (P x)} (l : list A) :
  (∀ x, x ∈ l → ¬ P x) → filter P l = [].
Proof.
  induction l as [|x l IH]; intros Hl; [done|].
  rewrite filter_cons_False by (apply Hl; left).
  apply IH. intros y Hy. apply Hl. by right.
Qed.

Section Sorting.
Context {A : Type} (le : A → A → bool).

Lemma insert_by_Permutation x l : insert_by le x l ≡ₚ x :: l.
Proof.
  induction l as [|y l IH]; simpl; [done|].
  destruct (le x y); [done|].
  rewrite IH. apply perm_swap.
Qed.

Lemma sort_by_Permutation l : sort_by le l ≡ₚ l.
Proof.
  induction l as [|x l IH]; simpl; [done|].
  by rewrite insert_by_Permutation, IH.
Qed.

Lemma length_sort_by l : length (sort_by le l) = length l.
Proof. by rewrite sort_by_Permutation. Qed.

Lemma elem_of_sort_by x l : x ∈ sort_by le l ↔ x ∈ l.
Proof. by rewrite sort_by_Permutation. Qed.

Hypothesis le_total : ∀ x y, le x y = true ∨ le y x = true.

Lemma insert_by_Sorted x l :
  Sorted (λ a b, le a b = true) l →
  Sorted (λ a b, le a b = true) (insert_by le x l).
Proof.
  induction 1 as [|y l Hs IH Hy]; simpl.
  - repeat constructor.
  - destruct (le x y) eqn:Hxy.
    + repeat constructor; done.
    + constructor; [done|].
      destruct (le_total x y) as [?|Hyx]; [congruence|].
      destruct Hy as [|z l Hyz]; simpl.
      * by constructor.
      * destruct (le x z); by constructor.
Qed.

Lemma sort_by_Sorted l : Sorted (λ a b, le a b = true) (sort_by le l).
Proof.
  induction l as [|x l IH]; simpl; [constructor|].
  by apply insert_by_Sorted.
Qed.

(** In a sorted list, neighbours are in order. *)
Lemma Sorted_adjacent (R : A → A → Prop) l i a b :
  Sorted R l → l !! i = Some a → l !! (i + 1) = Some b → R a b.
Proof.
  intros Hs. revert i. induction Hs as [|x l Hs IH Hx]; intros i Ha Hb.
  - done.
  - destruct i as [|i]; simpl in *.
    + simplify_eq. destruct Hx; simplify_eq/=. done.
    + eauto.
Qed.
End Sorting.

Section Grouping.
Context {A : Type} (key : A → pystr).

Lemma add_to_group_keys k x (gs : list (pystr * list A)) :
  ∀ k', k' ∈ (add_to_group k x gs).*1 ↔ k' = k ∨ k' ∈ gs.*1.
Proof.
  induction gs as [|[k0 g0] gs IH]; intros k'; simpl.
  - set_solver.
  - destruct (decide (k = k0)) as [->|Hne]; simpl.
    + set_solver.
    + rewrite !elem_of_cons, IH. naive_solver.
Qed.

Lemma add_to_group_NoDup k x (gs : list (pystr * list A)) :
  NoDup gs.*1 → NoDup (add_to_group k x gs).*1.
Proof.
  induction gs as [|[k0 g0] gs IH]; simpl.
  - intros _. apply NoDup_singleton.
  - rewrite NoDup_cons. intros [Hk0 Hnd].
    destruct (decide (k = k0)) as [->|Hne]; simpl.
    + by apply NoDup_cons.
    + apply NoDup_cons. split; [|by apply IH].
      rewrite add_to_group_keys. naive_solver.
Qed.

Lemma add_to_group_elem k x (gs : list (pystr * list A)) k' g' :
  NoDup gs.*1 →
  (k', g') ∈ add_to_group k x gs →
  (k' = k ∧ (k ∉ gs.*1) ∧ g' = [x])
  ∨ (k' = k ∧ ∃ g, (k, g) ∈ gs ∧ g' = g ++ [x])
  ∨ (k' ≠ k ∧ (k', g') ∈ gs).
Proof.
  induction gs as [|[k0 g0] gs IH]; simpl.
  - intros _ ?%list_elem_of_singleton. simplify_eq. left. set_solver.
  - rewrite NoDup_cons. intros [Hk0 Hnd].
    destruct (decide (k = k0)) as [->|Hne].
    + rewrite elem_of_cons. intros [?|Hin]; simplify_eq.
      * right. left. split; [done|]. exists g0. set_solver.
      * right. right. split; [|set_solver].
        intros ->. apply Hk0. apply list_elem_of_fmap. by exists (k0, g').
    + rewrite elem_of_cons. intros [?|Hin]; simplify_eq.
      * right. right. set_solver.
      * destruct (IH Hnd Hin) as [(-> & Hk & ->)|[(-> & g & Hg & ->)|[? ?]]].
        -- left. set_solver.
        -- right. left. split; [done|]. exists g. set_solver.
        -- right. right. set_solver.
Qed.

Lemma grouped_step gs l x :
  grouped key gs l → grouped key (add_to_group (key x) x gs) (l ++ [x]).
Proof.
  intros (Hnd & Hg & Hk). split; [|split].
  - by apply add_to_group_NoDup.
  - intros k g Hin. rewrite filter_app.
    destruct (add_to_group_elem _ _ _ _ _ Hnd Hin)
      as [(-> & Hfresh & ->)|[(-> & g0 & Hg0 & ->)|[Hne Hin']]].
    + split; [done|].
      assert (filter (λ y, key y = key x) l = []) as ->.
      { apply filter_none. intros y Hy Heq.
        apply Hfresh. rewrite <- Heq. by apply Hk. }
      by rewrite filter_cons_True.
    + destruct (Hg _ _ Hg0) as [_ ->]. split; [by destruct (filter _ l)|].
      by rewrite (filter_cons_True _ x []).
    + destruct (Hg _ _ Hin') as [? ->]. split; [done|].
      rewrite (filter_cons_False _ x []) by done.
      by rewrite filter_nil, app_nil_r.
  - intros y. rewrite elem_of_app, list_elem_of_singleton, add_to_group_keys.
    intros [?| ->]; [right; by apply Hk|by left].
Qed.

Lemma foldl_grouped l gs l0 :
  grouped key gs l0 →
  grouped key (foldl (λ gs x, add_to_group (key x) x gs) gs l) (l0 ++ l).
Proof.
  revert gs l0. induction l as [|x l IH]; intros gs l0 Hg; simpl.
  - by rewrite app_nil_r.
  - rewrite cons_middle, (assoc_L (++)). apply IH. by apply grouped_step.
Qed.

Lemma groupby_grouped l : grouped key (groupby key l) l.
Proof.
  apply (foldl_grouped l [] []). split; [constructor|]. set_solver.
Qed.

(** A group is the rows of its key, in table order. *)
Lemma groupby_elem l k g :
  (k, g) ∈ groupby key l → g = filter (λ x, key x = k) l.
Proof. intros Hin. by apply (groupby_grouped l). Qed.

Lemma groupby_NoDup l : NoDup (groupby key l).*1.
Proof. apply groupby_grouped. Qed.

Lemma groupby_key l x : x ∈ l → key x ∈ (groupby key l).*1.
Proof. apply groupby_grouped. Qed.
End Grouping.

(* ================================================================== *)
(** ** Columns of a row *)
(* ================================================================== *)

Lemma get_loc_Some c cols i : get_loc c cols = Some i → cols !! i = Some c.
Proof.
  revert i. induction cols as [|c' cols IH]; intros i; simpl; [done|].
  destruct (decide (c = c')) as [->|Hne].
  - by intros [= <-].
  - destruct (get_loc c cols) as [j|]; simpl; [|done].
    intros [= <-]. by apply IH.
Qed.

Lemma get_loc_lt c cols i : get_loc c cols = Some i → i < length cols.
Proof. intros Hi%get_loc_Some. by eapply lookup_lt_Some. Qed.

Lemma get_loc_elem_of c cols : c ∈ cols → is_Some (get_loc c cols).
Proof.
  induction 1 as [c cols|c c' cols Hin IH]; simpl.
  - rewrite decide_True by done. by eexists.
  - destruct (decide (c = c')); [by eexists|].
    destruct IH as [i ->]. by eexists.
Qed.

Lemma get_loc_None c cols : get_loc c cols = None → c ∉ cols.
Proof.
  intros Hn Hin. apply get_loc_elem_of in Hin as [i Hi]. congruence.
Qed.

Lemma get_loc_inj c1 c2 cols i :
  get_loc c1 cols = Some i → get_loc c2 cols = Some i → c1 = c2.
Proof. intros H1%get_loc_Some H2%get_loc_Some. congruence. Qed.

Lemma length_setcol cols c v r : length (setcol cols c v r) = length r.
Proof. unfold setcol. destruct (get_loc c cols); [apply length_insert|done]. Qed.

Lemma getcol_setcol_eq cols c v r :
  c ∈ cols → length r = length cols → getcol cols c (setcol cols c v r) = v.
Proof.
  intros [i Hi]%get_loc_elem_of Hlen. unfold getcol, setcol. rewrite Hi.
  rewrite list_lookup_insert_eq; [done|].
  rewrite Hlen. by eapply get_loc_lt.
Qed.

Lemma getcol_setcol_ne cols c c' v r :
  c ≠ c' → getcol cols c (setcol cols c' v r) = getcol cols c r.
Proof.
  intros Hne. unfold getcol, setcol.
  destruct (get_loc c cols) as [i|] eqn:Hi; [|done].
  destruct (get_loc c' cols) as [j|] eqn:Hj; [|done].
  rewrite list_lookup_insert_ne; [done|].
  intros ->. apply Hne. symmetry. by eapply get_loc_inj.
Qed.

(** A cell at a position that is not the position of [c] is not touched
    by an assignment to column [c]. *)
Lemma lookup_setcol_ne cols c v r j :
  get_loc c cols ≠ Some j → setcol cols c v r !! j = r !! j.
Proof.
  intros Hj. unfold setcol. destruct (get_loc c cols) as [i|]; [|done].
  apply list_lookup_insert_ne. congruence.
Qed.

Lemma normalize_rows cols rows :
  normalize cols rows = map (normalize_row cols) rows.
Proof.
  unfold normalize, normalize_row, normalize_col, normalize_step, assign.
  simpl. rewrite !map_map. done.
Qed.

Lemma length_normalize_step cols r c :
  length (normalize_step cols r c) = length r.
Proof. unfold normalize_step. by rewrite !length_setcol. Qed.

Lemma length_normalize_row cols r : length (normalize_row cols r) = length r.
Proof.
  unfold normalize_row. simpl.
  by rewrite !length_normalize_step, length_setcol.
Qed.

Lemma required_distinct : NoDup REQUIRED_COLS.
Proof. compute_done. Qed.

Lemma getcol_normalize_step_eq cols r c :
  c ∈ cols → length r = length cols →
  getcol cols c (normalize_step cols r c) = normalize_cell (getcol cols c r).
Proof.
  intros Hin Hlen. unfold normalize_step, normalize_cell.
  rewrite !getcol_setcol_eq; rewrite ?length_setcol; done.
Qed.

Lemma getcol_normalize_step_ne cols r c c' :
  c ≠ c' → getcol cols c (normalize_step cols r c') = getcol cols c r.
Proof. intros Hne. unfold normalize_step. by rewrite !getcol_setcol_ne. Qed.

(** A categorical cell of a normalised row is the normalised cell. *)
Lemma getcol_normalize_row cols r c :
  c ∈ CATEGORICAL_COLS → c ∈ cols → length r = length cols →
  getcol cols c (normalize_row cols r) = normalize_cell (getcol cols c r).
Proof.
  intros Hc Hin Hlen. unfold normalize_row. simpl.
  set (r0 := setcol cols COL_CALLER _ r).
  assert (length r0 = length cols) as Hlen0
    by (subst r0; by rewrite length_setcol).
  assert (getcol cols c r = getcol cols c r0) as ->.
  { subst r0. symmetry. apply getcol_setcol_ne.
    intros ->. revert Hc. compute_done. }
  clearbody r0.
  unfold CATEGORICAL_COLS in Hc.
  rewrite !elem_of_cons in Hc. rewrite elem_of_nil in Hc.
  destruct Hc as [->|[->|[->|[->|[]]]]];
    rewrite ?getcol_normalize_step_ne by compute_done;
    (rewrite getcol_normalize_step_eq;
       [|done|by rewrite ?length_normalize_step]);
    by rewrite ?getcol_normalize_step_ne by compute_done.
Qed.

(** The caller cell of a normalised row. *)
Lemma getcol_normalize_row_caller cols r :
  COL_CALLER ∈ cols → length r = length cols →
  getcol cols COL_CALLER (normalize_row cols r)
  = normalize_caller (getcol cols COL_CALLER r).
Proof.
  intros Hin Hlen. unfold normalize_row. simpl.
  rewrite !getcol_normalize_step_ne by compute_done.
  by apply getcol_setcol_eq.
Qed.

(** Outside the five normalised columns a row is left as it was read. *)
Lemma lookup_normalize_row cols r j :
  (∀ c, c ∈ COL_CALLER :: CATEGORICAL_COLS → get_loc c cols ≠ Some j) →
  normalize_row cols r !! j = r !! j.
Proof.
  intros Hj. unfold normalize_row, normalize_step. simpl.
  rewrite !lookup_setcol_ne; [done|..]; apply Hj; compute_done.
Qed.

(* ================================================================== *)
(** ** The processing copy *)
(* ================================================================== *)

Section Proc.
Context `{DatetimeParser}.
Variable cols : list pystr.

Lemma make_proc_Ok rows df_proc :
  make_proc cols rows = Ok df_proc →
  map p_cells df_proc = rows
  ∧ map p_rowid df_proc = seq 0 (length rows)
  ∧ to_datetime (map (getcol cols COL_START) rows)
    = map (λ p, Some (p_time p)) df_proc.
Proof.
  unfold make_proc.
  pose proof (to_datetime_length (map (getcol cols COL_START) rows)) as Hlen.
  rewrite length_map in Hlen.
  destruct (mapM id _) as [ts|] eqn:Hts; [|done].
  intros [= <-]. apply mapM_Some in Hts.
  assert (to_datetime (map (getcol cols COL_START) rows) = map Some ts) as Hmap.
  { clear Hlen. induction Hts as [|x t l k Hx _ IH]; simpl; [done|].
    simpl in Hx. by rewrite Hx, IH. }
  rewrite Hmap in *. rewrite length_map in Hlen. clear Hts Hmap.
  assert (∀ n, map p_cells (imap (λ i rt, mkProcRow rt.1 rt.2 (n + i)) (zip rows ts)) = rows
    ∧ map p_rowid (imap (λ i rt, mkProcRow rt.1 rt.2 (n + i)) (zip rows ts)) = seq n (length rows)
    ∧ map Some ts = map (λ p, Some (p_time p))
        (imap (λ i rt, mkProcRow rt.1 rt.2 (n + i)) (zip rows ts))) as Hgen.
  { revert ts Hlen. induction rows as [|r rows IH]; intros [|t ts] Hlen n;
      simplify_eq/=; [done|].
    destruct (IH ts Hlen (S n)) as (IH1 & IH2 & IH3).
    rewrite Nat.add_0_r.
    assert (imap ((λ i rt, mkProcRow rt.1 rt.2 (n + i)) ∘ S) (zip rows ts)
            = imap (λ i rt, mkProcRow rt.1 rt.2 (S n + i)) (zip rows ts)) as ->.
    { apply imap_ext. intros i [r' t'] _. simpl. f_equal. lia. }
    by rewrite IH1, IH2, <- IH3. }
  apply (Hgen 0).
Qed.

Lemma make_proc_length rows df_proc :
  make_proc cols rows = Ok df_proc → length df_proc = length rows.
Proof.
  intros (Hc & _ & _)%make_proc_Ok. by rewrite <- Hc, length_map.
Qed.

(** The row of [df_proc] at a position carries that position as its
    [_rowid], and the cells of the row of [df_str] at that position. *)
Lemma make_proc_lookup rows df_proc i p :
  make_proc cols rows = Ok df_proc →
  df_proc !! i = Some p → p_rowid p = i ∧ rows !! i = Some (p_cells p).
Proof.
  intros (Hc & Hr & _)%make_proc_Ok Hp. split.
  - assert (map p_rowid df_proc !! i = Some (p_rowid p)) as Hi
      by (by rewrite list_lookup_fmap, Hp).
    rewrite Hr in Hi. apply lookup_seq in Hi. lia.
  - by rewrite <- Hc, list_lookup_fmap, Hp.
Qed.

Lemma make_proc_elem rows df_proc p :
  make_proc cols rows = Ok df_proc →
  p ∈ df_proc → df_proc !! p_rowid p = Some p ∧ rows !! p_rowid p = Some (p_cells p).
Proof.
  intros Hok [i Hi]%list_elem_of_lookup.
  destruct (make_proc_lookup _ _ _ _ Hok Hi) as [<- ?]. done.
Qed.

Lemma make_proc_NoDup rows df_proc :
  make_proc cols rows = Ok df_proc → NoDup (map p_rowid df_proc).
Proof. intros (_ & -> & _)%make_proc_Ok. apply NoDup_seq. Qed.

(** The run stops at line 62 exactly when some start time is NaT. *)
Lemma make_proc_Err rows :
  (∃ i, to_datetime (map (getcol cols COL_START) rows) !! i = Some None) ↔
  make_proc cols rows = Err (ValueError time_message).
Proof.
  unfold make_proc. split.
  - intros [i Hi].
    destruct (mapM id _) as [ts|] eqn:Hts; [|done].
    apply mapM_Some in Hts.
    destruct (Forall2_lookup_l _ _ _ _ _ Hts Hi) as (t & _ & Ht). done.
  - destruct (mapM id _) as [ts|] eqn:Hts; [done|]. intros _.
    apply mapM_None, Exists_exists in Hts as (x & Hx & Hn).
    apply list_elem_of_lookup in Hx as [i Hi]. exists i.
    simpl in Hn. by rewrite Hi, Hn.
Qed.

Lemma make_proc_cases rows :
  (∃ df_proc, make_proc cols rows = Ok df_proc)
  ∨ make_proc cols rows = Err (ValueError time_message).
Proof.
  unfold make_proc. destruct (mapM id _); [left; by eexists|by right].
Qed.
End Proc.

(* ================================================================== *)
(** ** The pairing loop *)
(* ================================================================== *)

Section Pairs.
Context `{DatetimeParser}.
Variable cols : list pystr.

Lemma le_time_total a b : le_time a b = true ∨ le_time b a = true.
Proof. unfold le_time. lia. Qed.

Lemma pair_group_candidates g :
  pair_group cols g = flat_map (candidate cols g) (seq 0 (length g - 1)).
Proof. done. Qed.

Lemma length_candidate g i : length (candidate cols g i) ≤ 1.
Proof.
  unfold candidate. destruct (g !! i), (g !! (i + 1)); simpl; try lia.
  destruct (within_window _ _); simpl; lia.
Qed.

Lemma length_pair_group g : length (pair_group cols g) ≤ length g - 1.
Proof.
  rewrite pair_group_candidates.
  etransitivity; [apply length_flat_map_le, length_candidate|].
  by rewrite length_seq.
Qed.

Lemma elem_of_pair_group g p :
  p ∈ pair_group cols g ↔
  ∃ i a b, g !! i = Some a ∧ g !! (i + 1) = Some b
           ∧ within_window a b = true ∧ p = make_pair cols a b.
Proof.
  rewrite pair_group_candidates, elem_of_flat_map. unfold candidate. split.
  - intros (i & _ & Hp).
    destruct (g !! i) as [a|] eqn:Ha; [|by apply elem_of_nil in Hp].
    destruct (g !! (i + 1)) as [b|] eqn:Hb; [|by apply elem_of_nil in Hp].
    destruct (within_window a b) eqn:Hw; [|by apply elem_of_nil in Hp].
    apply list_elem_of_singleton in Hp. by exists i, a, b.
  - intros (i & a & b & Ha & Hb & Hw & ->). exists i. split.
    + apply elem_of_seq. apply lookup_lt_Some in Hb. lia.
    + rewrite Ha, Hb, Hw. by left.
Qed.

(** The loop of lines 70-77 as a walk along the group. *)
Lemma pair_group_cons a b g :
  pair_group cols (a :: b :: g)
  = (if within_window a b then [make_pair cols a b] else [])
    ++ pair_group cols (b :: g).
Proof.
  rewrite !pair_group_candidates. simpl length.
  replace (S (S (length g)) - 1) with (S (length g)) by lia.
  replace (S (length g) - 1) with (length g) by lia.
  cbn [seq flat_map]. f_equal.
  rewrite <- seq_shift, !flat_map_concat_map, map_map. done.
Qed.

Lemma pair_group_nil : pair_group cols [] = [].
Proof. done. Qed.

Lemma pair_group_singleton a : pair_group cols [a] = [].
Proof. done. Qed.

Lemma make_pairs_groups df_proc :
  make_pairs cols df_proc
  = flat_map (λ kg, pair_group cols (sort_by le_time kg.2)) (groups cols df_proc).
Proof. done. Qed.

(** A caller partition holds the rows of that caller, all of them. *)
Lemma groups_elem df_proc k g :
  (k, g) ∈ groups cols df_proc →
  g ≡ₚ filter (λ a, caller cols a = k) df_proc.
Proof.
  intros ->%groupby_elem. by rewrite sort_by_Permutation.
Qed.

Lemma groups_sorted_elem df_proc k g a :
  (k, g) ∈ groups cols df_proc →
  a ∈ sort_by le_time g ↔ a ∈ df_proc ∧ caller cols a = k.
Proof.
  intros Hg%groups_elem.
  rewrite elem_of_sort_by, Hg, list_elem_of_filter. naive_solver.
Qed.

Lemma groups_length df_proc k g :
  (k, g) ∈ groups cols df_proc →
  length (sort_by le_time g)
  = length (filter (λ a, caller cols a = k) df_proc).
Proof. intros Hg%groups_elem. by rewrite length_sort_by, Hg. Qed.

Lemma elem_of_make_pairs df_proc p :
  p ∈ make_pairs cols df_proc ↔
  ∃ k g i a b, (k, g) ∈ groups cols df_proc
    ∧ sort_by le_time g !! i = Some a
    ∧ sort_by le_time g !! (i + 1) = Some b
    ∧ within_window a b = true ∧ p = make_pair cols a b.
Proof.
  rewrite make_pairs_groups, elem_of_flat_map. split.
  - intros ([k g] & Hg & Hp).
    apply elem_of_pair_group in Hp as (i & a & b & ?). by exists k, g, i, a, b.
  - intros (k & g & i & a & b & Hg & Hp).
    exists (k, g). split; [done|]. apply elem_of_pair_group. by exists i, a, b.
Qed.

(** Neighbours of a sorted partition are in ascending time. *)
Lemma sorted_group_adjacent g i a b :
  sort_by le_time g !! i = Some a →
  sort_by le_time g !! (i + 1) = Some b →
  (p_time a ≤ p_time b)%Z.
Proof.
  intros Ha Hb.
  pose proof (sort_by_Sorted le_time le_time_total g) as Hs.
  pose proof (Sorted_adjacent _ _ _ _ _ Hs Ha Hb) as Hle.
  unfold le_time in Hle. lia.
Qed.
End Pairs.

(* ================================================================== *)
(** ** Export *)
(* ================================================================== *)

Section Exporting.
Context `{DatetimeParser}.
Variable cols : list pystr.

Lemma within_window_le a b :
  within_window a b = true ↔ (p_time b - p_time a ≤ W)%Z.
Proof. unfold within_window, W. lia. Qed.

(** Every emitted pair names two rows of [df_proc] by their position:
    two calls of one caller, neighbours in time. *)
Lemma make_pairs_rows rows df_proc p :
  make_proc cols rows = Ok df_proc →
  p ∈ make_pairs cols df_proc →
  ∃ a b, p = make_pair cols a b
    ∧ df_proc !! rid_a p = Some a ∧ df_proc !! rid_b p = Some b
    ∧ rows !! rid_a p = Some (p_cells a) ∧ rows !! rid_b p = Some (p_cells b)
    ∧ caller cols a = caller cols b
    ∧ (0 ≤ p_time b - p_time a ≤ W)%Z.
Proof.
  intros Hok (k & g & i & a & b & Hg & Ha & Hb & Hw & ->)%elem_of_make_pairs.
  exists a, b.
  assert (a ∈ sort_by le_time g) as Ha' by (by eapply list_elem_of_lookup_2).
  assert (b ∈ sort_by le_time g) as Hb' by (by eapply list_elem_of_lookup_2).
  apply (groups_sorted_elem _ _ _ _ _ Hg) in Ha' as [Ha' Hka].
  apply (groups_sorted_elem _ _ _ _ _ Hg) in Hb' as [Hb' Hkb].
  destruct (make_proc_elem _ _ _ _ Hok Ha') as [? ?].
  destruct (make_proc_elem _ _ _ _ Hok Hb') as [? ?].
  pose proof (sorted_group_adjacent _ _ _ _ Ha Hb).
  apply within_window_le in Hw.
  unfold rid_a, rid_b, make_pair; simpl.
  repeat split; try done; try lia. congruence.
Qed.

Lemma pairs_to_original_rows_Ok df_str ps :
  (∀ p, p ∈ ps → is_Some (df_str !! rid_a p) ∧ is_Some (df_str !! rid_b p)) →
  ∃ out, pairs_to_original_rows df_str ps = Ok out.
Proof.
  induction ps as [|p ps IH]; intros Hps; simpl; [by eexists|].
  destruct (Hps p) as [[a Ha] [b Hb]]; [by left|].
  destruct IH as [out Hout]; [intros q Hq; apply Hps; by right|].
  unfold iloc. rewrite Ha, Hb. simpl. rewrite Hout. simpl. by eexists.
Qed.

(** The table built from a list of pairs: two rows per pair, the row
    of A then the row of B, in the order of the pairs. *)
Lemma pairs_to_original_rows_lookup df_str ps out :
  pairs_to_original_rows df_str ps = Ok out →
  length out = 2 * length ps
  ∧ ∀ j p, ps !! j = Some p →
      is_Some (df_str !! rid_a p)
      ∧ out !! (2 * j) = df_str !! rid_a p
      ∧ out !! (2 * j + 1) = df_str !! rid_b p.
Proof.
  revert out. induction ps as [|p ps IH]; intros out; simpl.
  - intros [= <-]. done.
  - unfold iloc.
    destruct (df_str !! rid_a p) as [a|] eqn:Ha; [|done].
    destruct (df_str !! rid_b p) as [b|] eqn:Hb; [|done]. simpl.
    destruct (pairs_to_original_rows df_str ps) as [rest|] eqn:Hr; [|done].
    simpl. intros [= <-]. destruct (IH rest eq_refl) as [Hl Hj].
    split; [simpl; lia|].
    intros [|j] q Hq; simplify_eq/=.
    + rewrite Ha, Hb. eauto.
    + destruct (Hj j q Hq) as (? & ? & ?).
      replace (j + S (j + 0)) with (S (2 * j)) by lia.
      replace (j + S (j + 0) + 1) with (S (2 * j + 1)) by lia.
      done.
Qed.

Lemma pairs_to_original_rows_elem df_str ps out r :
  pairs_to_original_rows df_str ps = Ok out →
  r ∈ out →
  ∃ p, p ∈ ps ∧ (df_str !! rid_a p = Some r ∨ df_str !! rid_b p = Some r).
Proof.
  revert out. induction ps as [|p ps IH]; intros out; simpl.
  - intros [= <-] Hr. by apply elem_of_nil in Hr.
  - unfold iloc.
    destruct (df_str !! rid_a p) as [a|] eqn:Ha; [|done].
    destruct (df_str !! rid_b p) as [b|] eqn:Hb; [|done]. simpl.
    destruct (pairs_to_original_rows df_str ps) as [rest|] eqn:Hr; [|done].
    simpl. intros [= <-]. rewrite !elem_of_cons.
    intros [->|[->|Hin]].
    + exists p. split; [by left|by left].
    + exists p. split; [by left|by right].
    + destruct (IH rest eq_refl Hin) as (q & Hq & Hrow).
      exists q. split; [by right|done].
Qed.

(** The early return of lines 84-87 writes what the general path
    writes on an empty list of pairs. *)
Lemma export_eq df_str pairs :
  export cols df_str pairs
  = (df_nc_only ← pairs_to_original_rows df_str
                    (filter (λ p, label p = LABEL_SAME) pairs);
     df_c_only ← pairs_to_original_rows df_str
                   (filter (λ p, label p = LABEL_CROSS) pairs);
     Ok (mkOutput (mkDataFrame cols df_nc_only) (mkDataFrame cols df_c_only)
           (length (filter (λ p, label p = LABEL_SAME) pairs),
            length (filter (λ p, label p = LABEL_CROSS) pairs)))).
Proof.
  unfold export. destruct (decide (pairs = [])) as [->|]; done.
Qed.

(** Once the start times parse, the run succeeds: no row id of a pair
    is out of range. *)
Lemma process_rows_Ok rows df_proc :
  make_proc cols (filter_rows cols (normalize cols rows)) = Ok df_proc →
  ∃ nc c,
    pairs_to_original_rows (filter_rows cols (normalize cols rows))
      (filter (λ p, label p = LABEL_SAME) (make_pairs cols df_proc)) = Ok nc
    ∧ pairs_to_original_rows (filter_rows cols (normalize cols rows))
        (filter (λ p, label p = LABEL_CROSS) (make_pairs cols df_proc)) = Ok c
    ∧ process_rows cols rows
      = Ok (mkOutput (mkDataFrame cols nc) (mkDataFrame cols c)
              (length (filter (λ p, label p = LABEL_SAME)
                         (make_pairs cols df_proc)),
               length (filter (λ p, label p = LABEL_CROSS)
                         (make_pairs cols df_proc)))).
Proof.
  intros Hok. unfold process_rows. rewrite Hok. simpl. rewrite export_eq.
  set (df_str := filter_rows cols (normalize cols rows)) in *.
  assert (∀ P `{!∀ p, Decision (P p)} p,
    p ∈ filter P (make_pairs cols df_proc) →
    is_Some (df_str !! rid_a p) ∧ is_Some (df_str !! rid_b p)) as Hrange.
  { intros P ? p [_ Hp]%list_elem_of_filter.
    destruct (make_pairs_rows _ _ _ Hok Hp)
      as (a & b & _ & _ & _ & Ha & Hb & _). rewrite Ha, Hb. eauto. }
  destruct (pairs_to_original_rows_Ok df_str _ (Hrange (λ p, label p = LABEL_SAME) _))
    as [nc Hnc].
  destruct (pairs_to_original_rows_Ok df_str _ (Hrange (λ p, label p = LABEL_CROSS) _))
    as [c Hc].
  exists nc, c. rewrite Hnc, Hc. done.
Qed.
End Exporting.

(* ================================================================== *)
(** ** Properties of the run *)
(* ================================================================== *)

Lemma length_filter_map {A B} (f : A → B) (P : B → Prop)
    `{!∀ y, Decision (P y)} (l : list A) :
  length (filter P (map f l)) = length (filter (λ x, P (f x)) l).
Proof.
  induction l as [|x l IH]; simpl; [done|].
  rewrite !filter_cons. destruct (decide (P (f x))); simpl; by rewrite IH.
Qed.

Section Claims.
Context `{DatetimeParser}.
Variable cols : list pystr.

Lemma partition_rowids rows df_proc k g :
  make_proc cols rows = Ok df_proc →
  (k, g) ∈ groups cols df_proc →
  NoDup (map p_rowid (sort_by le_time g)).
Proof.
  intros Hok Hg%groups_elem.
  rewrite sort_by_Permutation, Hg.
  eapply sublist_NoDup; [by eapply make_proc_NoDup|].
  apply fmap_sublist, sublist_filter.
Qed.

Lemma partition_length rows df_proc k g :
  make_proc cols rows = Ok df_proc →
  (k, g) ∈ groups cols df_proc →
  length (sort_by le_time g) = length (filter (λ r, caller_of cols r = k) rows).
Proof.
  intros Hok Hg. rewrite (groups_length _ _ _ _ Hg).
  destruct (make_proc_Ok _ _ _ Hok) as (<- & _ & _).
  by rewrite length_filter_map.
Qed.

(** C2. Within the partition of a caller, sorted by time, a pair links
    position [i] to position [i + 1] and nothing else: every pair of
    the partition is such a pair, a caller with [n] surviving calls
    yields at most [n - 1] pairs, and three calls within the window
    yield the two pairs (1,2) and (2,3), the middle call being B of the
    first and A of the second, while calls 1 and 3 are not paired. *)
Theorem C2_adjacent_pairs_only rows df_proc k g :
  make_proc cols rows = Ok df_proc →
  (k, g) ∈ groups cols df_proc →
  let s := sort_by le_time g in
  let n := length (filter (λ r, caller_of cols r = k) rows) in
  make_pairs cols df_proc
  = flat_map (λ kg, pair_group cols (sort_by le_time kg.2)) (groups cols df_proc)
  ∧ length s = n
  ∧ (∀ p, p ∈ pair_group cols s →
       ∃ i a b, s !! i = Some a ∧ s !! (i + 1) = Some b
                ∧ p = make_pair cols a b)
  ∧ length (pair_group cols s) ≤ n - 1
  ∧ (∀ a b c, s = [a; b; c] → (p_time c - p_time a ≤ W)%Z →
       pair_group cols s = [make_pair cols a b; make_pair cols b c]
       ∧ rid_b (make_pair cols a b) = rid_a (make_pair cols b c)
       ∧ make_pair cols a c ∉ pair_group cols s).
Proof.
  intros Hok Hg s n.
  assert (length s = n) as Hn by (by eapply partition_length).
  split; [done|]. split; [done|]. split; [|split].
  - intros p (i & a & b & ? & ? & _ & ?)%elem_of_pair_group. by exists i, a, b.
  - rewrite <- Hn. apply length_pair_group.
  - intros a b c Hs Hw.
    pose proof (partition_rowids _ _ _ _ Hok Hg) as Hnd.
    fold s in Hnd.
    assert (p_time a ≤ p_time b)%Z as Hab.
    { apply (sorted_group_adjacent g 0); fold s; by rewrite Hs. }
    assert (p_time b ≤ p_time c)%Z as Hbc.
    { apply (sorted_group_adjacent g 1); fold s; by rewrite Hs. }
    rewrite Hs in *. clear Hs.
    rewrite !pair_group_cons, pair_group_singleton.
    assert (within_window a b = true) as -> by (apply within_window_le; lia).
    assert (within_window b c = true) as -> by (apply within_window_le; lia).
    split; [done|]. split; [done|].
    simpl in Hnd. apply NoDup_cons in Hnd as [Ha Hnd].
    apply NoDup_cons in Hnd as [Hb _].
    simpl. rewrite !elem_of_cons, elem_of_nil.
    intros [Heq|[Heq|[]]].
    + apply (f_equal rid_b) in Heq. unfold rid_b, make_pair in Heq.
      simpl in Heq. apply Hb. rewrite <- Heq. by left.
    + apply (f_equal rid_a) in Heq. unfold rid_a, make_pair in Heq.
      simpl in Heq. apply Ha. rewrite Heq. by left.
Qed.



Lemma label_make_pair a b :
  (label (make_pair cols a b) = LABEL_CROSS
     ↔ answered_group cols a ≠ inbound_group cols b)
  ∧ (label (make_pair cols a b) = LABEL_SAME
     ↔ answered_group cols a = inbound_group cols b).
Proof.
  unfold make_pair, label, cross, answered_group, inbound_group. simpl.
  case_bool_decide as Hd; split; split; try done; try (by intros [=]).
  all: intros Hx; try (by destruct Hd); by apply dec_stable in Hd.
Qed.

Lemma length_filter_labels (ps : list Pair) :
  (∀ p, p ∈ ps → label p = LABEL_SAME ∨ label p = LABEL_CROSS) →
  length (filter (λ p, label p = LABEL_SAME) ps)
  + length (filter (λ p, label p = LABEL_CROSS) ps) = length ps.
Proof.
  induction ps as [|p ps IH]; intros Hl; [done|].
  rewrite !filter_cons.
  assert (LABEL_SAME ≠ LABEL_CROSS) as Hne by done.
  destruct (Hl p) as [Hp|Hp]; [by left|..]; rewrite Hp;
    rewrite ?decide_True by done; rewrite ?decide_False by done;
    simpl; rewrite <- IH by (intros q Hq; apply Hl; by right); lia.
Qed.

(** C4. A pair is labelled cross-group exactly when the answered group
    of A differs from the inbound group of B, as strings, and same-group
    exactly when they are equal; every pair of a run has one of the two
    labels, so, on a table with distinct labels and start times whose
    differences are in range, the two returned counts add up to the
    number of pairs. *)
Theorem C4_classification rows df_proc :
  make_proc cols (filter_rows cols (normalize cols rows)) = Ok df_proc →
  (∀ p, p ∈ make_pairs cols df_proc →
     ∃ a b, df_proc !! rid_a p = Some a ∧ df_proc !! rid_b p = Some b
       ∧ (label p = LABEL_CROSS ↔ answered_group cols a ≠ inbound_group cols b)
       ∧ (label p = LABEL_SAME ↔ answered_group cols a = inbound_group cols b)
       ∧ (label p = LABEL_CROSS ∨ label p = LABEL_SAME))
  ∧ (NoDup cols →
     deltas_in_range (surviving_times cols rows) = true →
     ∃ out, process_rows cols rows = Ok out
      ∧ ret out
        = (length (filter (λ p, label p = LABEL_SAME) (make_pairs cols df_proc)),
           length (filter (λ p, label p = LABEL_CROSS) (make_pairs cols df_proc)))
      ∧ (ret out).1 + (ret out).2 = length (make_pairs cols df_proc)).
Proof.
  intros Hok.
  assert (∀ p, p ∈ make_pairs cols df_proc →
     ∃ a b, df_proc !! rid_a p = Some a ∧ df_proc !! rid_b p = Some b
       ∧ (label p = LABEL_CROSS ↔ answered_group cols a ≠ inbound_group cols b)
       ∧ (label p = LABEL_SAME ↔ answered_group cols a = inbound_group cols b)
       ∧ (label p = LABEL_CROSS ∨ label p = LABEL_SAME)) as Hpairs.
  { intros p Hp.
    destruct (make_pairs_rows _ _ _ _ Hok Hp) as (a & b & -> & Ha & Hb & _).
    exists a, b. destruct (label_make_pair a b) as [Hc Hs].
    repeat split; try done; try apply Hc; try apply Hs.
    destruct (decide (answered_group cols a = inbound_group cols b)) as [He|Hne].
    - right. by apply Hs.
    - left. by apply Hc. }
  split; [done|]. intros _ _.
  destruct (process_rows_Ok _ _ _ Hok) as (nc & c & _ & _ & ->).
  eexists. split; [done|]. simpl. split; [done|].
  apply length_filter_labels. intros p Hp.
  destruct (Hpairs p Hp) as (? & ? & _ & _ & _ & _ & []); auto.
Qed.

Lemma cell_ne_text (c : cell) (s : pystr) :
  s ≠ u "nan" → c ≠ Some s ↔ astype_str c ≠ s.
Proof. intros Hs. destruct c as [t|]; simpl; naive_solver. Qed.

Lemma keep_survives r : keep cols r = true ↔ survives cols r.
Proof.
  unfold keep, survives, field.
  rewrite !andb_true_iff, !bool_decide_eq_true.
  rewrite !(cell_ne_text _ []) by done.
  rewrite (cell_ne_text _ EXCLUDE_GROUP) by done.
  naive_solver.
Qed.

Lemma filter_rows_survives rows :
  filter_rows cols rows = filter (survives cols) rows.
Proof.
  unfold filter_rows. apply list_filter_iff. intros r.
  rewrite <- keep_survives. by destruct (keep cols r).
Qed.

Lemma make_proc_nil : make_proc cols [] = Ok [].
Proof.
  unfold make_proc. simpl.
  pose proof (to_datetime_length []) as Hl.
  destruct (to_datetime []); [done|discriminate].
Qed.

(** C5. The filter keeps exactly the normalised rows whose four
    categorical fields are non-empty and whose inbound group is not the
    excluded group, in their order; it has no error case, and when no
    row survives, the labels of the table being distinct, the run ends
    with two tables without rows. *)
Theorem C5_filter rows :
  let norm := normalize cols rows in
  let df_str := filter_rows cols norm in
  df_str = filter (survives cols) norm
  ∧ (∀ r, r ∈ df_str ↔ r ∈ norm ∧ survives cols r)
  ∧ df_str `sublist_of` norm
  ∧ (df_str = [] → NoDup cols →
     process_rows cols rows = Ok (empty_output cols)).
Proof.
  intros norm df_str. subst df_str.
  rewrite filter_rows_survives.
  split; [done|]. split; [|split].
  - intros r. rewrite list_elem_of_filter. naive_solver.
  - apply sublist_filter.
  - intros Hnil _. unfold process_rows. subst norm.
    rewrite filter_rows_survives, Hnil, make_proc_nil. done.
Qed.
End Claims.

(* ------------------------------------------------------------------ *)
(** *** The two errors *)
(* ------------------------------------------------------------------ *)

Lemma infix_of_app_l s t l : infix_of s t → infix_of s (l ++ t).
Proof.
  intros (l1 & l2 & ->). exists (l ++ l1), l2. by rewrite <- (assoc_L (++)).
Qed.

Lemma infix_of_app_r s t l : infix_of s t → infix_of s (t ++ l).
Proof.
  intros (l1 & l2 & ->). exists l1, (l2 ++ l). by rewrite <- !(assoc_L (++)).
Qed.

Lemma join_infix sep (l : list pystr) s : s ∈ l → infix_of s (join sep l).
Proof.
  induction l as [|x l IH]; intros Hs.
  - by apply elem_of_nil in Hs.
  - apply elem_of_cons in Hs as [->|Hs].
    + destruct l as [|y l]; simpl.
      * exists [], []. by rewrite app_nil_r.
      * exists [], (sep ++ join sep (y :: l)). done.
    + destruct l as [|y l]; [by apply elem_of_nil in Hs|].
      change (join sep (x :: y :: l)) with (x ++ sep ++ join sep (y :: l)).
      by apply infix_of_app_l, infix_of_app_l, IH.
Qed.

Lemma repr_list_infix (l : list pystr) c :
  c ∈ l → infix_of (repr_str c) (repr_list l).
Proof.
  intros Hc. unfold repr_list.
  apply infix_of_app_l, infix_of_app_r, join_infix.
  by apply list_elem_of_fmap_2.
Qed.

Lemma elem_of_missing_cols cols c :
  c ∈ missing_cols cols ↔ c ∈ REQUIRED_COLS ∧ c ∉ cols.
Proof. unfold missing_cols. rewrite list_elem_of_filter. naive_solver. Qed.

Lemma check_columns_Ok cols :
  (∀ c, c ∈ REQUIRED_COLS → c ∈ cols) ↔ check_columns cols = Ok tt.
Proof.
  unfold check_columns. split.
  - intros Hall. rewrite decide_True; [done|].
    apply filter_none. intros c Hc Hn. by apply Hn, Hall.
  - destruct (decide _) as [Hm|]; [|done]. intros _ c Hc.
    destruct (decide (c ∈ cols)) as [|Hn]; [done|].
    assert (c ∈ missing_cols cols) as Hin by (by apply elem_of_missing_cols).
    rewrite Hm in Hin. by apply elem_of_nil in Hin.
Qed.

(** C6. When a required column is absent from the cleaned header, the
    run fails with a [ValueError] whose message is the text of line 37:
    the list of the missing columns, then the list of the six required
    ones; each of them occurs in it by name.  A failed run is an [Err]:
    no table is written. *)
Theorem C6_schema_error `{DatetimeParser} (df : DataFrame) :
  let cols := map _clean_col (columns df) in
  let missing := missing_cols cols in
  (∃ c, c ∈ REQUIRED_COLS ∧ c ∉ cols) →
  (∀ c, c ∈ missing ↔ c ∈ REQUIRED_COLS ∧ c ∉ cols)
  ∧ ∃ msg,
      msg = u "Excel 缺少必需列：" ++ repr_list missing ++ [10%N]
            ++ u "必须包含：" ++ repr_list REQUIRED_COLS
      ∧ (∀ c, c ∈ missing → infix_of (repr_str c) msg)
      ∧ (∀ c, c ∈ REQUIRED_COLS → infix_of (repr_str c) msg)
      ∧ process_excel df = Err (ValueError msg).
Proof.
  intros cols missing (c0 & Hreq & Habs).
  split; [apply elem_of_missing_cols|].
  exists (schema_message missing). split; [done|].
  split; [|split].
  - intros c Hc. unfold schema_message.
    by apply infix_of_app_l, infix_of_app_r, repr_list_infix.
  - intros c Hc. unfold schema_message.
    by do 4 apply infix_of_app_l; apply repr_list_infix.
  - unfold process_excel, check_columns. fold cols. fold missing.
    rewrite decide_False; [done|]. intros Hnil.
    assert (c0 ∈ missing) as Hin by (by apply elem_of_missing_cols).
    rewrite Hnil in Hin. by apply elem_of_nil in Hin.
Qed.

(** C7. When the cleaned header is complete, without a label twice,
    and the start time of some row
    that survives the filter parses to NaT, the run fails with the
    [ValueError] of line 62, before any pair is formed: the result is an
    [Err], which holds no table. *)
Theorem C7_time_parse_error `{DatetimeParser} (df : DataFrame) :
  let cols := map _clean_col (columns df) in
  let df_str := filter_rows cols (normalize cols (values df)) in
  (∀ c, c ∈ REQUIRED_COLS → c ∈ cols) →
  NoDup cols →
  (∃ i, to_datetime (map (getcol cols COL_START) df_str) !! i = Some None) →
  process_excel df = Err (ValueError time_message).
Proof.
  intros cols df_str Hcols _ Hnat.
  unfold process_excel. fold cols.
  rewrite (proj1 (check_columns_Ok cols) Hcols). simpl.
  unfold process_rows. fold df_str.
  by rewrite (proj1 (make_proc_Err cols df_str) Hnat).
Qed.

(** C8. When the cleaned header is complete, without a label twice,
    the start times parse, their differences being in range, and no pair
    is formed, the run writes two tables, each with the whole header of
    the input (one label per input column) and no row, and returns
    [(0, 0)]; this is what happens when the filter leaves no row. *)
Theorem C8_zero_pairs `{DatetimeParser} (df : DataFrame) :
  let cols := map _clean_col (columns df) in
  let df_str := filter_rows cols (normalize cols (values df)) in
  (∀ c, c ∈ REQUIRED_COLS → c ∈ cols) →
  NoDup cols →
  deltas_in_range (surviving_times cols (values df)) = true →
  (df_str = []
   ∨ ∃ df_proc, make_proc cols df_str = Ok df_proc
                ∧ make_pairs cols df_proc = []) →
  process_excel df
  = Ok (mkOutput (mkDataFrame cols []) (mkDataFrame cols []) (0, 0))
  ∧ length cols = length (columns df).
Proof.
  intros cols df_str Hcols _ _ Hzero. split; [|apply length_map].
  unfold process_excel. fold cols.
  rewrite (proj1 (check_columns_Ok cols) Hcols). simpl.
  unfold process_rows. fold df_str.
  destruct Hzero as [->|(df_proc & -> & Hnil)].
  - by rewrite make_proc_nil.
  - simpl. by rewrite Hnil.
Qed.

(* ------------------------------------------------------------------ *)
(** *** The time difference of a pair *)
(* ------------------------------------------------------------------ *)

(** C9. In every pair of a run, A does not start after B: the two rows
    named by the pair satisfy [0 <= time B - time A <= 24 h].  The test
    of line 73 alone would let any negative difference through; the
    ascending sort of the partition is what excludes it. *)
Theorem C9_delta_range `{DatetimeParser} (cols : list pystr)
    (rows : list row) (df_proc : list ProcRow) (p : Pair) :
  make_proc cols rows = Ok df_proc →
  p ∈ make_pairs cols df_proc →
  (∃ a b, df_proc !! rid_a p = Some a ∧ df_proc !! rid_b p = Some b
     ∧ (p_time a ≤ p_time b)%Z
     ∧ (0 ≤ p_time b - p_time a ≤ Timedelta_hours 24)%Z)
  ∧ (∀ a b, (p_time b < p_time a)%Z → within_window a b = true).
Proof.
  intros Hok Hp. split.
  - destruct (make_pairs_rows _ _ _ _ Hok Hp)
      as (a & b & _ & Ha & Hb & _ & _ & _ & Hd).
    exists a, b. unfold W, TIME_WINDOW_HOURS in Hd.
    repeat split; try done; lia.
  - intros a b Hlt. apply within_window_le.
    unfold W, Timedelta_hours, TIME_WINDOW_HOURS. lia.
Qed.

(* ------------------------------------------------------------------ *)
(** *** Normalised values *)
(* ------------------------------------------------------------------ *)

Lemma normalize_cell_text c : normalize_cell c = Some (clean_text c).
Proof.
  unfold normalize_cell, clean_text, squeeze, blank_nan.
  by destruct (decide _).
Qed.


Section Normalised.
Context `{DatetimeParser}.
Variable cols : list pystr.
Hypothesis required_present : ∀ c, c ∈ REQUIRED_COLS → c ∈ cols.

Lemma categorical_present c : c ∈ CATEGORICAL_COLS → c ∈ cols.
Proof.
  intros Hc. apply required_present. revert Hc.
  unfold CATEGORICAL_COLS, REQUIRED_COLS. rewrite !elem_of_cons. naive_solver.
Qed.


End Normalised.

(** Every row of either table of [process_rows] is a row of the
    filtered, normalised table: the normalised form of a row read from
    the input that passes the filter. *)
Lemma output_rows_normalized `{DatetimeParser} (cols : list pystr)
    (rows : list row) (out : Output) (r : row) :
  process_rows cols rows = Ok out →
  r ∈ values (out_nc out) ∨ r ∈ values (out_c out) →
  ∃ r0, r0 ∈ rows ∧ r = normalize_row cols r0 ∧ survives cols r.
Proof.
  intros Hout Hr.
  assert (r ∈ filter_rows cols (normalize cols rows)) as Hin.
  { destruct (make_proc_cases cols (filter_rows cols (normalize cols rows)))
      as [[df_proc Hok]|Herr].
    - destruct (process_rows_Ok _ _ _ Hok) as (nc & c & Hnc & Hc & Heq).
      rewrite Heq in Hout. injection Hout as <-. simpl in Hr.
      destruct Hr as [Hr|Hr].
      + destruct (pairs_to_original_rows_elem _ _ _ _ Hnc Hr) as (p & _ & [Hp|Hp]);
          by eapply list_elem_of_lookup_2.
      + destruct (pairs_to_original_rows_elem _ _ _ _ Hc Hr) as (p & _ & [Hp|Hp]);
          by eapply list_elem_of_lookup_2.
    - unfold process_rows in Hout. by rewrite Herr in Hout. }
  rewrite filter_rows_survives in Hin.
  apply list_elem_of_filter in Hin as [Hs Hin].
  rewrite normalize_rows in Hin.
  apply list_elem_of_fmap in Hin as (r0 & -> & Hr0). by exists r0.
Qed.

(* ================================================================== *)
(** ** The run on the tables of the examples *)
(* ================================================================== *)

Module Examples.
Import Tables.
#[local] Existing Instance Iso.parser.

Lemma header_clean : map _clean_col header = cols.
Proof. vm_compute. reflexivity. Qed.


Lemma three_calls_proc :
  make_proc cols (df_str_of three_calls) = Ok (df_proc_of three_calls).
Proof. vm_compute. reflexivity. Qed.

Lemma three_calls_partition :
  (caller_138, partition_138) ∈ groups cols (df_proc_of three_calls).
Proof. vm_compute. left. Qed.

Example three_calls_run :
  ret <$> (match process_excel three_calls with Ok o => Some o | Err _ => None end)
  = Some (1, 1).
Proof. vm_compute. reflexivity. Qed.

Example scenario_a_pairs :
  make_pairs cols (df_proc_of scenario_a) = [(LABEL_SAME, 0, 1)].
Proof. vm_compute. reflexivity. Qed.

Example exactly_24h_run :
  process_excel exactly_24h
  = Ok (mkOutput (mkDataFrame cols (values exactly_24h))
                 (mkDataFrame cols []) (1, 0)).
Proof. vm_compute. reflexivity. Qed.

Example one_second_more_run :
  process_excel one_second_more
  = Ok (mkOutput (mkDataFrame cols []) (mkDataFrame cols []) (0, 0)).
Proof. vm_compute. reflexivity. Qed.

(** C1. The rows written are not always the rows read: on [prefixed]
    the run writes the pair to the same-group table, and the row written
    for call A holds the caller number without its prefix and the
    answered group without its space, where the row read holds
    ["TEL:13800000000"] and ["A B"]; the free-text cell ["x y"] is
    written as read. *)
Theorem C1_export_rewrites_cells :
  ∃ out r_out r_src,
    process_excel prefixed = Ok out
    ∧ ret out = (1, 0)
    ∧ values (out_nc out) !! 0 = Some r_out
    ∧ values prefixed !! 0 = Some r_src
    ∧ r_src !! 1 = Some (Some (u "TEL:13800000000"))
    ∧ r_out !! 1 = Some (Some (u "13800000000"))
    ∧ r_src !! 2 = Some (Some (u "A B"))
    ∧ r_out !! 2 = Some (Some (u "AB"))
    ∧ r_src !! 6 = r_out !! 6
    ∧ r_out ≠ r_src.
Proof.
  eexists _, _, _. split; [vm_compute; reflexivity|].
  split; [reflexivity|]. split; [reflexivity|]. split; [reflexivity|].
  repeat (split; [vm_compute; reflexivity|]).
  vm_compute. discriminate.
Qed.

Example scenario_b_run :
  df_str_of scenario_b
  = [ call "2024-03-01 10:00:00" "13800000000" "A" "A" "801" "Li" "";
      call "2024-03-01 11:00:00" "13800000000" "AB" "A" "801" "Li" "";
      call "2024-03-01 11:30:00" "13800000000" "A" "AB" "801" "Li" "" ]
  ∧ make_pairs cols (df_proc_of scenario_b)
    = [(LABEL_SAME, 0, 1); (LABEL_SAME, 1, 2)].
Proof. split; vm_compute; reflexivity. Qed.

Lemma C2_witness :
  length (sort_by le_time partition_138) = 3
  ∧ pair_group cols (sort_by le_time partition_138)
    = [(LABEL_SAME, 1, 3); (LABEL_CROSS, 3, 0)].
Proof.
  destruct (C2_adjacent_pairs_only cols (df_str_of three_calls)
              (df_proc_of three_calls) caller_138 partition_138)
    as (_ & Hn & _ & _ & H3);
    [vm_compute; reflexivity|vm_compute; left|].
  split; [rewrite Hn; vm_compute; reflexivity|].
  destruct (H3 (mkProcRow (call "2024-03-01 10:00:00" "13800000000" "A" "A" "801" "Li" "")
                  1709287200000000000 1)
               (mkProcRow (call "2024-03-01 11:00:00" "13800000000" "B" "A" "801" "Li" "")
                  1709290800000000000 3)
               (mkProcRow (call "2024-03-01 12:00:00" "13800000000" "A" "A" "801" "Li" "")
                  1709294400000000000 0))
    as (-> & _ & _);
    [vm_compute; reflexivity|vm_compute; discriminate|].
  vm_compute. reflexivity.
Defined.


Lemma C5_witness :
  process_rows cols (values scenario_c) = Ok (empty_output cols).
Proof.
  destruct (C5_filter cols (values scenario_c)) as (_ & _ & _ & Hempty).
  apply Hempty.
  - vm_compute. reflexivity.
  - apply (bool_decide_unpack _). vm_compute. exact I.
Defined.

Lemma C4_witness :
  ∃ out, process_rows cols (values three_calls) = Ok out
         ∧ ret out = (1, 1) ∧ (ret out).1 + (ret out).2 = 2.
Proof.
  destruct (C4_classification cols (values three_calls) (df_proc_of three_calls))
    as [_ Hrun]; [vm_compute; reflexivity|].
  destruct Hrun as (out & Hout & Hret & Hsum);
    [apply (bool_decide_unpack _); vm_compute; exact I
    |vm_compute; reflexivity|].
  exists out. split; [done|]. split.
  - rewrite Hret. vm_compute. reflexivity.
  - rewrite Hsum. vm_compute. reflexivity.
Defined.

Lemma C6_witness :
  ∃ msg, process_excel no_start_no_name = Err (ValueError msg)
         ∧ msg = u "Excel 缺少必需列：['开始时间', '坐席姓名']" ++ [10%N]
                 ++ u "必须包含：['开始时间', '主叫号码', '接听技能组', '呼入技能组', '坐席分机', '坐席姓名']"
         ∧ infix_of (repr_str COL_NAME) msg.
Proof.
  destruct (C6_schema_error no_start_no_name)
    as (Hmiss & msg & Hmsg & Hin & _ & Herr).
  { exists COL_START. split; apply (bool_decide_unpack _); vm_compute; exact I. }
  exists msg. split; [done|]. split.
  - rewrite Hmsg. vm_compute. reflexivity.
  - apply Hin, Hmiss. split; apply (bool_decide_unpack _); vm_compute; exact I.
Defined.

Lemma C7_witness : process_excel bad_time = Err (ValueError time_message).
Proof.
  apply (C7_time_parse_error bad_time).
  - intros c Hc. apply (bool_decide_unpack _).
    repeat (apply elem_of_cons in Hc as [->|Hc]; [vm_compute; exact I|]).
    by apply elem_of_nil in Hc.
  - apply (bool_decide_unpack _). vm_compute. exact I.
  - exists 1. vm_compute. reflexivity.
Defined.

Lemma C8_witness :
  process_excel scenario_c
  = Ok (mkOutput (mkDataFrame cols []) (mkDataFrame cols []) (0, 0)).
Proof.
  destruct (C8_zero_pairs scenario_c) as [Heq _].
  - intros c Hc. apply (bool_decide_unpack _).
    repeat (apply elem_of_cons in Hc as [->|Hc]; [vm_compute; exact I|]).
    by apply elem_of_nil in Hc.
  - apply (bool_decide_unpack _). vm_compute. exact I.
  - vm_compute. reflexivity.
  - left. vm_compute. reflexivity.
  - rewrite Heq. vm_compute. reflexivity.
Defined.

Lemma C9_witness :
  ∃ a b, df_proc_of three_calls !! 1 = Some a
         ∧ df_proc_of three_calls !! 3 = Some b
         ∧ (p_time b - p_time a = 3600 * 1000000000)%Z
         ∧ (0 ≤ p_time b - p_time a ≤ Timedelta_hours 24)%Z.
Proof.
  destruct (C9_delta_range cols (df_str_of three_calls) (df_proc_of three_calls)
              (LABEL_SAME, 1, 3))
    as [(a & b & Ha & Hb & _ & Hd) _];
    [vm_compute; reflexivity|vm_compute; left|].
  exists a, b. change (rid_a (LABEL_SAME, 1, 3)) with 1 in Ha.
  change (rid_b (LABEL_SAME, 1, 3)) with 3 in Hb.
  split; [done|]. split; [done|]. split; [|done].
  vm_compute in Ha, Hb. injection Ha as <-. injection Hb as <-.
  vm_compute. reflexivity.
Defined.

End Examples.

(* ================================================================== *)
(** ** Further properties: header labels *)
(* ================================================================== *)

Lemma lstrip_spaces (pre s : pystr) :
  Forall (λ c, isspace c = true) pre → lstrip (pre ++ s) = lstrip s.
Proof. induction 1 as [|c pre Hc _ IH]; simpl; [done|]. by rewrite Hc. Qed.

Lemma lstrip_head (s : pystr) :
  (∀ c, head s = Some c → isspace c = false) → lstrip s = s.
Proof.
  destruct s as [|c s]; simpl; [done|]. intros Hc. by rewrite (Hc c).
Qed.

Lemma lstrip_split (s : pystr) :
  ∃ pre, s = pre ++ lstrip s ∧ Forall (λ c, isspace c = true) pre
         ∧ (∀ c, head (lstrip s) = Some c → isspace c = false).
Proof.
  induction s as [|c s (pre & Hs & Hpre & Hhd)]; simpl.
  - exists []. by repeat split.
  - destruct (isspace c) eqn:Hc.
    + exists (c :: pre). split; [by rewrite Hs at 1|]. split; [by constructor|done].
    + exists []. repeat split; [constructor|]. simpl. by intros ? [= <-].
Qed.

Lemma rstrip_spaces (s post : pystr) :
  Forall (λ c, isspace c = true) post → rstrip (s ++ post) = rstrip s.
Proof.
  intros Hp. unfold rstrip. rewrite reverse_app, lstrip_spaces; [done|].
  by apply Forall_reverse.
Qed.

Lemma rstrip_last (s : pystr) :
  (∀ c, last s = Some c → isspace c = false) → rstrip s = s.
Proof.
  intros Hl. unfold rstrip. rewrite lstrip_head; [apply reverse_involutive|].
  intros c Hc. apply Hl. by rewrite <- head_reverse.
Qed.

Lemma rstrip_split (s : pystr) :
  ∃ post, s = rstrip s ++ post ∧ Forall (λ c, isspace c = true) post
          ∧ (∀ c, last (rstrip s) = Some c → isspace c = false).
Proof.
  destruct (lstrip_split (reverse s)) as (pre & Hs & Hpre & Hhd).
  exists (reverse pre). unfold rstrip. split; [|split].
  - rewrite <- reverse_app, <- Hs. by rewrite reverse_involutive.
  - by apply Forall_reverse.
  - intros c Hc. apply Hhd. by rewrite last_reverse in Hc.
Qed.

Lemma rstrip_head (s : pystr) c :
  head s = Some c → isspace c = false → head (rstrip s) = Some c.
Proof.
  intros Hhd Hc. destruct (rstrip_split s) as (post & Hs & Hpost & _).
  destruct (rstrip s) as [|c' t] eqn:Ht; simpl in *.
  - rewrite Hs in Hhd. destruct post as [|p post]; [done|].
    simpl in Hhd. injection Hhd as ->. apply Forall_cons in Hpost as [Hp _].
    congruence.
  - rewrite Hs in Hhd. done.
Qed.

(** [strip] takes the whitespace off both ends and nothing else. *)
Lemma strip_padding (pre mid post : pystr) :
  Forall (λ c, isspace c = true) pre →
  Forall (λ c, isspace c = true) post →
  trimmed mid → strip (pre ++ mid ++ post) = mid.
Proof.
  intros Hpre Hpost [Hhd Hla]. unfold strip. rewrite lstrip_spaces by done.
  destruct mid as [|c mid].
  - simpl. rewrite <- (app_nil_r post), lstrip_spaces by done. done.
  - rewrite lstrip_head by (simpl; intros ? [= <-]; by apply Hhd).
    rewrite rstrip_spaces by done. by apply rstrip_last.
Qed.

Lemma strip_trimmed (s : pystr) : trimmed (strip s).
Proof.
  unfold strip. destruct (lstrip_split s) as (_ & _ & _ & Hhd).
  destruct (rstrip_split (lstrip s)) as (post & Hs & Hpost & Hla).
  split; [|done]. intros c Hc.
  destruct (rstrip (lstrip s)) as [|c' t] eqn:Ht; [done|].
  simpl in Hc. injection Hc as ->. apply Hhd. by rewrite Hs.
Qed.

Lemma strip_sublist (s : pystr) : strip s `sublist_of` s.
Proof.
  unfold strip. destruct (lstrip_split s) as (pre & Hs & _ & _).
  destruct (rstrip_split (lstrip s)) as (post & Ht & _ & _).
  rewrite Hs at 2. rewrite Ht at 2.
  apply sublist_inserts_l, sublist_inserts_r. done.
Qed.

Lemma Forall_sublist_of {A} (P : A → Prop) (l1 l2 : list A) :
  l1 `sublist_of` l2 → Forall P l2 → Forall P l1.
Proof.
  rewrite !Forall_forall. intros Hsub Hl x Hx.
  apply Hl. by eapply elem_of_sublist.
Qed.

Lemma replace_char_id old new (s : pystr) :
  Forall (λ c, c ≠ old) s → replace_char old new s = s.
Proof.
  unfold replace_char. induction 1 as [|c s Hc _ IH]; simpl; [done|].
  rewrite IH. by rewrite (proj2 (N.eqb_neq c old)).
Qed.

Lemma remove_char_id old (s : pystr) :
  Forall (λ c, c ≠ old) s → remove_char old s = s.
Proof.
  unfold remove_char. induction 1 as [|c s Hc _ IH]; [done|].
  by rewrite filter_cons_True, IH.
Qed.

Lemma replace_char_Forall (P : N → Prop) old new (s : pystr) :
  P new → Forall P s → Forall P (replace_char old new s).
Proof.
  intros Hn. unfold replace_char. induction 1 as [|c s Hc _ IH]; simpl; [done|].
  constructor; [|done]. by destruct (c =? old)%N.
Qed.

Lemma replace_char_not old new (s : pystr) :
  new ≠ old → Forall (λ c, c ≠ old) (replace_char old new s).
Proof.
  intros Hn. unfold replace_char. induction s as [|c s IH]; simpl; [done|].
  constructor; [|done]. destruct (c =? old)%N eqn:Hc; [done|].
  by apply N.eqb_neq.
Qed.

Lemma remove_char_Forall (P : N → Prop) old (s : pystr) :
  Forall P s → Forall P (remove_char old s).
Proof.
  intros Hs. unfold remove_char. eapply Forall_sublist_of; [|done].
  apply sublist_filter.
Qed.

Lemma remove_char_not old (s : pystr) :
  Forall (λ c, c ≠ old) (remove_char old s).
Proof.
  unfold remove_char. apply Forall_forall.
  by intros c [? _]%list_elem_of_filter.
Qed.

Lemma not_header_noise (s : pystr) :
  Forall (λ c, ¬ header_noise c) s ↔
  Forall (λ c, c ≠ 12288%N) s ∧ Forall (λ c, c ≠ 160%N) s
  ∧ Forall (λ c, c ≠ 13%N) s ∧ Forall (λ c, c ≠ 10%N) s.
Proof.
  unfold header_noise. rewrite !Forall_forall.
  setoid_rewrite elem_of_cons. setoid_rewrite elem_of_cons.
  setoid_rewrite elem_of_cons. setoid_rewrite elem_of_cons.
  setoid_rewrite elem_of_nil. naive_solver.
Qed.

Lemma clean_col_wrapped (pre c post : pystr) :
  Forall (λ ch, isspace ch = true) pre →
  Forall (λ ch, isspace ch = true) post →
  trimmed c →
  Forall (λ ch, ¬ header_noise ch) c →
  _clean_col (pre ++ c ++ post) = c.
Proof.
  intros Hpre Hpost Htr (H1 & H2 & H3 & H4)%not_header_noise.
  unfold _clean_col, replace_char, remove_char.
  rewrite !map_app, !filter_app.
  fold (replace_char 12288 32 c) (replace_char 12288 32 pre)
       (replace_char 12288 32 post).
  fold (replace_char 160 32 (replace_char 12288 32 c))
       (replace_char 160 32 (replace_char 12288 32 pre))
       (replace_char 160 32 (replace_char 12288 32 post)).
  rewrite (replace_char_id 12288 32 c), (replace_char_id 160 32 c) by done.
  fold (remove_char 13 c) (remove_char 13 (replace_char 160 32 (replace_char 12288 32 pre)))
       (remove_char 13 (replace_char 160 32 (replace_char 12288 32 post))).
  rewrite (remove_char_id 13 c) by done.
  fold (remove_char 10 c).
  rewrite (remove_char_id 10 c) by done.
  apply strip_padding; [| |done];
    apply (remove_char_Forall (λ ch, isspace ch = true) 10),
          (remove_char_Forall (λ ch, isspace ch = true) 13),
          replace_char_Forall, replace_char_Forall; done.
Qed.

(** X1. A label wrapped in whitespace of any kind, line breaks
    included, is cleaned to the label itself, provided the label is
    trimmed and holds none of the four characters that the cleaning
    rewrites. *)
Theorem clean_col_padding (pre c post : pystr) :
  Forall (λ ch, isspace ch = true) pre →
  Forall (λ ch, isspace ch = true) post →
  trimmed c →
  Forall (λ ch, ¬ header_noise ch) c →
  _clean_col (pre ++ c ++ post) = c.
Proof. apply clean_col_wrapped. Qed.

(** X2. A cleaned label is trimmed and free of the four rewritten
    characters, and cleaning it again changes nothing. *)
Theorem clean_col_idempotent (c : pystr) :
  trimmed (_clean_col c)
  ∧ Forall (λ ch, ¬ header_noise ch) (_clean_col c)
  ∧ _clean_col (_clean_col c) = _clean_col c.
Proof.
  assert (Forall (λ ch, ¬ header_noise ch) (_clean_col c)) as Hn.
  { unfold _clean_col. eapply Forall_sublist_of; [apply strip_sublist|].
    apply not_header_noise. repeat split.
    - do 2 apply remove_char_Forall.
      apply replace_char_Forall; [done|]. by apply replace_char_not.
    - do 2 apply remove_char_Forall. by apply replace_char_not.
    - apply remove_char_Forall, remove_char_not.
    - apply remove_char_not. }
  split; [apply strip_trimmed|]. split; [done|].
  rewrite <- (app_nil_r (_clean_col c)) at 1.
  apply (clean_col_wrapped [] (_clean_col c) []); try done.
  apply strip_trimmed.
Qed.

Lemma required_clean c :
  c ∈ REQUIRED_COLS → trimmed c ∧ Forall (λ ch, ¬ header_noise ch) c.
Proof.
  unfold REQUIRED_COLS. rewrite !elem_of_cons, elem_of_nil.
  intros [->|[->|[->|[->|[->|[->|[]]]]]]]; (split; [split|]);
    try (intros ch [= <-]; reflexivity);
    repeat (constructor; [compute_done|]); constructor.
Qed.

(** X3. A header in which every required name stands, each possibly
    wrapped in whitespace and line breaks, passes the column check. *)
Theorem padded_header_accepted (hdr : list pystr) :
  (∀ c, c ∈ REQUIRED_COLS →
     ∃ pre post, Forall (λ ch, isspace ch = true) pre
                 ∧ Forall (λ ch, isspace ch = true) post
                 ∧ pre ++ c ++ post ∈ hdr) →
  check_columns (map _clean_col hdr) = Ok tt.
Proof.
  intros Hall. apply check_columns_Ok. intros c Hc.
  destruct (Hall c Hc) as (pre & post & Hpre & Hpost & Hin).
  destruct (required_clean c Hc) as [Htr Hn].
  rewrite <- (clean_col_wrapped pre c post) by done.
  by apply list_elem_of_fmap_2.
Qed.

(* ================================================================== *)
(** ** Further properties: normalised cells *)
(* ================================================================== *)

Lemma strip_prefix_app (p s : pystr) :
  Forall (λ c, prefix_char c = true) p → strip_prefix (p ++ s) = strip_prefix s.
Proof. induction 1 as [|c p Hc _ IH]; simpl; [done|]. by rewrite Hc. Qed.

Lemma strip_prefix_head (s : pystr) :
  (∀ c, head s = Some c → prefix_char c = false) → strip_prefix s = s.
Proof.
  destruct s as [|c s]; simpl; [done|]. intros Hc. by rewrite (Hc c).
Qed.

Lemma strip_id (s : pystr) : trimmed s → strip s = s.
Proof.
  intros Hs. rewrite <- (app_nil_r s) at 1. by apply (strip_padding [] s []).
Qed.

(** X4. A run of Latin letters, colons and spaces in front of a caller
    number is dropped: when the rest is trimmed and does not start with
    such a character, the normalised number is the rest, and a number
    without prefix is kept as it is.  So two rows whose numbers differ
    in the prefix only have one caller. *)
Theorem caller_prefix_dropped (cols : list pystr) (r1 r2 : row) (p s : pystr) :
  COL_CALLER ∈ cols →
  length r1 = length cols → length r2 = length cols →
  Forall (λ c, prefix_char c = true) p →
  trimmed s → (∀ c, head s = Some c → prefix_char c = false) →
  getcol cols COL_CALLER r1 = Some (p ++ s) →
  getcol cols COL_CALLER r2 = Some s →
  normalize_caller (Some (p ++ s)) = Some s
  ∧ normalize_caller (Some s) = Some s
  ∧ caller_of cols (normalize_row cols r1) = s
  ∧ caller_of cols (normalize_row cols r2) = s.
Proof.
  intros Hin Hl1 Hl2 Hp Htr Hhd H1 H2.
  assert (normalize_caller (Some (p ++ s)) = Some s) as Hps.
  { unfold normalize_caller. simpl.
    by rewrite strip_prefix_app, strip_prefix_head, strip_id. }
  assert (normalize_caller (Some s) = Some s) as Hs.
  { unfold normalize_caller. simpl. by rewrite strip_prefix_head, strip_id. }
  unfold caller_of, field.
  rewrite !getcol_normalize_row_caller by done.
  rewrite H1, H2, Hps, Hs. done.
Qed.

(** X5. A caller cell made of letters, colons and spaces only, and a
    missing cell, which reads ["nan"], are normalised to the empty
    text: such rows all have the caller [""]. *)
Theorem caller_letters_empty (cols : list pystr) (r : row) :
  COL_CALLER ∈ cols → length r = length cols →
  Forall (λ c, prefix_char c = true) (astype_str (getcol cols COL_CALLER r)) →
  normalize_caller None = Some []
  ∧ caller_of cols (normalize_row cols r) = [].
Proof.
  intros Hin Hlen Hp. split; [done|].
  unfold caller_of, field. rewrite getcol_normalize_row_caller by done.
  unfold normalize_caller. simpl.
  rewrite <- (app_nil_r (astype_str _)), strip_prefix_app by done. done.
Qed.

Lemma remove_whitespace_none (s : pystr) :
  Forall (λ ch, isspace ch = false) (remove_whitespace s).
Proof.
  unfold remove_whitespace. apply Forall_forall.
  by intros c [? _]%list_elem_of_filter.
Qed.

Lemma remove_whitespace_id (s : pystr) :
  Forall (λ ch, isspace ch = false) s → remove_whitespace s = s.
Proof.
  unfold remove_whitespace. induction 1 as [|c s Hc _ IH]; [done|].
  by rewrite filter_cons_True, IH.
Qed.

(** X6. The text left in a categorical cell holds no whitespace and is
    not ["nan"] in any case, and normalising a normalised cell changes
    nothing. *)
Theorem clean_text_invariant (c : cell) :
  Forall (λ ch, isspace ch = false) (clean_text c)
  ∧ lower (clean_text c) ≠ u "nan"
  ∧ normalize_cell (normalize_cell c) = normalize_cell c.
Proof.
  assert (Forall (λ ch, isspace ch = false) (clean_text c)) as Hws.
  { unfold clean_text. destruct (decide _); [constructor|].
    apply remove_whitespace_none. }
  assert (lower (clean_text c) ≠ u "nan") as Hnan.
  { unfold clean_text. destruct (decide _); done. }
  split; [done|]. split; [done|].
  rewrite !normalize_cell_text. f_equal.
  unfold clean_text at 1. simpl.
  rewrite remove_whitespace_id by done. by rewrite decide_False.
Qed.

(* ================================================================== *)
(** ** Further properties: the outcome of a run *)
(* ================================================================== *)

Lemma schema_message_ne_time_message missing :
  schema_message missing ≠ time_message.
Proof.
  intros Heq. apply (f_equal head) in Heq. vm_compute in Heq. discriminate.
Qed.

Lemma mapM_id_is_Some {A} (l : list (option A)) :
  is_Some (mapM id l) ↔ Forall is_Some l.
Proof.
  split.
  - intros [k Hk]. apply mapM_Some in Hk.
    induction Hk as [|x y l k Hx _ IH]; constructor; [|done].
    simpl in Hx. by rewrite Hx.
  - intros Hl. destruct (mapM id l) as [k|] eqn:Hk; [by eexists|].
    apply mapM_None, Exists_exists in Hk as (x & Hx & Hn).
    rewrite Forall_forall in Hl. destruct (Hl x Hx) as [y ->]. done.
Qed.

(** X7. On a table whose cleaned labels are distinct and whose start
    times have differences in range, a run ends in exactly one of three
    ways.  It succeeds when the
    cleaned header holds the six required columns and every start time
    of a surviving row parses; it fails with the time error when the
    header is complete and some start time does not parse; it fails with
    the column error otherwise, whatever the start times are.  It never
    fails on a row position out of range. *)
Theorem process_excel_outcome `{DatetimeParser} (df : DataFrame) :
  let cols := map _clean_col (columns df) in
  let times :=
    to_datetime (map (getcol cols COL_START)
                     (filter_rows cols (normalize cols (values df)))) in
  NoDup cols →
  deltas_in_range times = true →
  process_excel df ≠ Err IndexError
  ∧ ((∃ out, process_excel df = Ok out) ↔
       (∀ c, c ∈ REQUIRED_COLS → c ∈ cols) ∧ Forall is_Some times)
  ∧ (process_excel df = Err (ValueError time_message) ↔
       (∀ c, c ∈ REQUIRED_COLS → c ∈ cols) ∧ ∃ i, times !! i = Some None)
  ∧ (process_excel df = Err (ValueError (schema_message (missing_cols cols))) ↔
       ∃ c, c ∈ REQUIRED_COLS ∧ c ∉ cols).
Proof.
  intros cols times _ _.
  destruct (decide (missing_cols cols = [])) as [Hm|Hm].
  - assert (∀ c, c ∈ REQUIRED_COLS → c ∈ cols) as Hreq.
    { apply check_columns_Ok. unfold check_columns. by rewrite decide_True. }
    assert (process_excel df = process_rows cols (values df)) as Heq.
    { unfold process_excel. fold cols.
      by rewrite (proj1 (check_columns_Ok cols) Hreq). }
    rewrite Heq.
    assert (¬ ∃ c, c ∈ REQUIRED_COLS ∧ c ∉ cols) as Hno by naive_solver.
    pose proof (make_proc_Err cols (filter_rows cols (normalize cols (values df))))
      as Herr. fold times in Herr.
    destruct (make_proc_cases cols (filter_rows cols (normalize cols (values df))))
      as [[df_proc Hok]|Hbad].
    + destruct (process_rows_Ok _ _ _ Hok) as (nc & c & _ & _ & Hout).
      rewrite Hout.
      assert (Forall is_Some times) as Hall.
      { apply mapM_id_is_Some. unfold make_proc in Hok. fold times in Hok.
        destruct (mapM id times); [by eexists|done]. }
      assert (¬ ∃ i, times !! i = Some None) as Hnone.
      { intros [i Hi]. rewrite Forall_forall in Hall.
        destruct (Hall None) as [? ?]; [by eapply list_elem_of_lookup_2|done]. }
      split; [done|]. split; [split; [done|by eexists]|]. split.
      * split; [done|]. intros [_ Hex]. by destruct Hnone.
      * split; [done|]. intros Hex. by destruct Hno.
    + assert (process_rows cols (values df) = Err (ValueError time_message)) as ->.
      { unfold process_rows. by rewrite Hbad. }
      apply Herr in Hbad.
      assert (¬ Forall is_Some times) as Hnot.
      { intros Hall. destruct Hbad as [i Hi]. rewrite Forall_forall in Hall.
        destruct (Hall None) as [? ?]; [by eapply list_elem_of_lookup_2|done]. }
      split; [done|]. split; [|split].
      * split; [by intros [? ?]|]. intros [_ Hall]. by destruct Hnot.
      * by split.
      * split; [|intros Hex; by destruct Hno].
        intros Hs.
        assert (schema_message (missing_cols cols) = time_message) as Hs'
          by congruence.
        by apply schema_message_ne_time_message in Hs'.
  - assert (process_excel df
            = Err (ValueError (schema_message (missing_cols cols)))) as ->.
    { unfold process_excel, check_columns. fold cols. by rewrite decide_False. }
    assert (∃ c, c ∈ REQUIRED_COLS ∧ c ∉ cols) as Hex.
    { destruct (missing_cols cols) as [|c m] eqn:Hmc; [done|].
      exists c. apply elem_of_missing_cols. rewrite Hmc. by left. }
    assert (¬ ∀ c, c ∈ REQUIRED_COLS → c ∈ cols) as Hnot by naive_solver.
    split; [done|]. split; [|split].
    + split; [by intros [? ?]|]. intros [Hreq _]. by destruct Hnot.
    + split; [|intros [Hreq _]; by destruct Hnot].
      intros Hs.
      assert (schema_message (missing_cols cols) = time_message) as Hs'
        by congruence.
      by apply schema_message_ne_time_message in Hs'.
    + by split.
Qed.

(** X8. On a table with distinct labels and start times whose
    differences are in range, the two tables of a successful run hold
    the cleaned header and
    two rows for each pair of their class, in the order of the pairs:
    the row of [df_str] named by A, then the one named by B. *)
Theorem export_layout `{DatetimeParser} (cols : list pystr) (rows : list row)
    (df_proc : list ProcRow) :
  NoDup cols →
  deltas_in_range (surviving_times cols rows) = true →
  make_proc cols (filter_rows cols (normalize cols rows)) = Ok df_proc →
  ∃ out, process_rows cols rows = Ok out
    ∧ columns (out_nc out) = cols ∧ columns (out_c out) = cols
    ∧ ∀ lbl tbl,
        (lbl = LABEL_SAME ∧ tbl = values (out_nc out)
         ∨ lbl = LABEL_CROSS ∧ tbl = values (out_c out)) →
        length tbl
        = 2 * length (filter (λ p, label p = lbl) (make_pairs cols df_proc))
        ∧ ∀ j p,
            filter (λ p, label p = lbl) (make_pairs cols df_proc) !! j = Some p →
            tbl !! (2 * j) = filter_rows cols (normalize cols rows) !! rid_a p
            ∧ tbl !! (2 * j + 1) = filter_rows cols (normalize cols rows) !! rid_b p
            ∧ is_Some (tbl !! (2 * j)) ∧ is_Some (tbl !! (2 * j + 1)).
Proof.
  intros _ _ Hok.
  destruct (process_rows_Ok _ _ _ Hok) as (nc & c & Hnc & Hc & Hout).
  eexists. split; [done|]. simpl. split; [done|]. split; [done|].
  intros lbl tbl Hcase.
  assert (pairs_to_original_rows (filter_rows cols (normalize cols rows))
            (filter (λ p, label p = lbl) (make_pairs cols df_proc)) = Ok tbl)
    as Htbl by (destruct Hcase as [[-> ->]|[-> ->]]; done).
  destruct (pairs_to_original_rows_lookup _ _ _ Htbl) as [Hlen Hrows].
  split; [done|]. intros j p Hj.
  destruct (Hrows j p Hj) as (Hsome & Ha & Hb).
  apply lookup_lt_Some in Hj.
  split; [done|]. split; [done|].
  split; apply lookup_lt_is_Some; lia.
Qed.

(** X9. On a table with distinct labels and start times whose
    differences are in range, no row is written that the filter would
    drop: every row of either table is the normalised form of a row of the input, its four
    categorical fields are not empty and its inbound group is not the
    excluded group. *)
Theorem written_rows_survive `{DatetimeParser} (cols : list pystr)
    (rows : list row) (out : Output) (r : row) :
  NoDup cols →
  deltas_in_range (surviving_times cols rows) = true →
  process_rows cols rows = Ok out →
  r ∈ values (out_nc out) ∨ r ∈ values (out_c out) →
  (∃ r0, r0 ∈ rows ∧ r = normalize_row cols r0)
  ∧ field cols COL_INBOUND r ≠ [] ∧ field cols COL_ANSWERED r ≠ []
  ∧ field cols COL_EXT r ≠ [] ∧ field cols COL_NAME r ≠ []
  ∧ field cols COL_INBOUND r ≠ EXCLUDE_GROUP.
Proof.
  intros _ _ Hout Hr.
  destruct (output_rows_normalized cols rows out r Hout Hr) as (r0 & ? & ? & Hs).
  split; [by exists r0|done].
Qed.

(** X10. On a table with distinct labels and start times whose
    differences are in range, nothing is rewritten outside the caller
    number and the four categorical columns: a written row has as many cells as the row it
    comes from, and it holds the cell that was read at every position
    that is not the position of one of these five labels, hence under
    every other label, the start time among them. *)
Theorem written_rows_other_cells `{DatetimeParser} (cols : list pystr)
    (rows : list row) (out : Output) (r : row) :
  NoDup cols →
  deltas_in_range (surviving_times cols rows) = true →
  process_rows cols rows = Ok out →
  r ∈ values (out_nc out) ∨ r ∈ values (out_c out) →
  ∃ r0, r0 ∈ rows ∧ length r = length r0
    ∧ (∀ j, (∀ c, c ∈ COL_CALLER :: CATEGORICAL_COLS → get_loc c cols ≠ Some j) →
            r !! j = r0 !! j)
    ∧ (∀ c, c ∉ COL_CALLER :: CATEGORICAL_COLS →
            getcol cols c r = getcol cols c r0)
    ∧ getcol cols COL_START r = getcol cols COL_START r0.
Proof.
  intros _ _ Hout Hr.
  destruct (output_rows_normalized cols rows out r Hout Hr) as (r0 & ? & -> & _).
  assert (∀ c, c ∉ COL_CALLER :: CATEGORICAL_COLS →
            getcol cols c (normalize_row cols r0) = getcol cols c r0) as Hlabel.
  { intros c Hc. unfold getcol.
    destruct (get_loc c cols) as [j|] eqn:Hj; [|done].
    rewrite lookup_normalize_row; [done|].
    intros c' Hc' Hj'. apply Hc.
    by rewrite (get_loc_inj c c' cols j). }
  exists r0. split; [done|]. split; [apply length_normalize_row|].
  split; [intros j Hj; by apply lookup_normalize_row|].
  split; [done|]. apply Hlabel. compute_done.
Qed.

(* ================================================================== *)
(** ** Further properties: the pairs of a run *)
(* ================================================================== *)

(** X11. A pair never links a row to itself nor rows of two callers:
    its two row ids differ and name rows of [df_str] with one caller
    number. *)
Theorem pairs_within_caller `{DatetimeParser} (cols : list pystr)
    (rows : list row) (df_proc : list ProcRow) (p : Pair) :
  make_proc cols rows = Ok df_proc →
  p ∈ make_pairs cols df_proc →
  rid_a p ≠ rid_b p
  ∧ ∃ ra rb, rows !! rid_a p = Some ra ∧ rows !! rid_b p = Some rb
             ∧ caller_of cols ra = caller_of cols rb.
Proof.
  intros Hok Hp. split.
  - apply elem_of_make_pairs in Hp as (k & g & i & a & b & Hg & Ha & Hb & _ & ->).
    pose proof (partition_rowids _ _ _ _ _ Hok Hg) as Hnd.
    unfold rid_a, rid_b, make_pair. simpl. intros Heq.
    assert (i = i + 1); [|lia].
    eapply (NoDup_lookup _ _ _ _ Hnd); rewrite list_lookup_fmap.
    + by rewrite Ha.
    + by rewrite Hb, Heq.
  - destruct (make_pairs_rows _ _ _ _ Hok Hp)
      as (a & b & _ & _ & _ & Hra & Hrb & Hc & _).
    by exists (p_cells a), (p_cells b).
Qed.

Lemma add_to_group_concat {A} k (x : A) (gs : list (pystr * list A)) :
  concat (add_to_group k x gs).*2 ≡ₚ x :: concat gs.*2.
Proof.
  induction gs as [|[k0 g0] gs IH]; simpl; [done|].
  destruct (decide (k = k0)); simpl.
  - rewrite <- (assoc_L (++)). simpl.
    by rewrite <- Permutation_middle.
  - rewrite IH. by rewrite <- Permutation_middle.
Qed.

Lemma foldl_groupby_concat {A} (key : A → pystr) (l : list A) gs :
  concat (foldl (λ gs x, add_to_group (key x) x gs) gs l).*2
  ≡ₚ concat gs.*2 ++ l.
Proof.
  revert gs. induction l as [|x l IH]; intros gs; simpl.
  - by rewrite app_nil_r.
  - rewrite IH, add_to_group_concat. by rewrite <- Permutation_middle.
Qed.

(** The partitions together hold every row once. *)
Lemma groupby_concat {A} (key : A → pystr) (l : list A) :
  concat (groupby key l).*2 ≡ₚ l.
Proof. unfold groupby. by rewrite foldl_groupby_concat. Qed.

Lemma groupby_nonempty {A} (key : A → pystr) (l : list A) k g :
  (k, g) ∈ groupby key l → g ≠ [].
Proof.
  intros Hin. destruct (groupby_grouped key l) as (_ & Hg & _).
  by destruct (Hg k g Hin).
Qed.

Lemma flat_map_sublist {A B} (f g : A → list B) (l : list A) :
  (∀ x, x ∈ l → f x `sublist_of` g x) →
  flat_map f l `sublist_of` flat_map g l.
Proof.
  induction l as [|x l IH]; intros Hfg; simpl; [done|].
  apply sublist_app; [apply Hfg; by left|].
  apply IH. intros y Hy. apply Hfg. by right.
Qed.

Lemma map_flat_map {A B C} (h : B → C) (f : A → list B) (l : list A) :
  map h (flat_map f l) = flat_map (λ x, map h (f x)) l.
Proof. induction l as [|x l IH]; simpl; [done|]. by rewrite map_app, IH. Qed.

Lemma flat_map_concat_perm {A B} (f : list A → list B) (h : A → B)
    (gs : list (pystr * list A)) :
  (∀ g, f g ≡ₚ map h g) →
  flat_map (λ kg, f kg.2) gs ≡ₚ map h (concat gs.*2).
Proof.
  intros Hf. induction gs as [|[k g] gs IH]; simpl; [done|].
  by rewrite map_app, IH, Hf.
Qed.

Section PairedOnce.
Context `{DatetimeParser}.
Variable cols : list pystr.

Lemma pair_group_rid_a (s : list ProcRow) :
  map rid_a (pair_group cols s) `sublist_of` map p_rowid s.
Proof.
  induction s as [|a [|b s] IH]; [apply sublist_nil_l..|].
  rewrite pair_group_cons, map_app.
  destruct (within_window a b); simpl.
  - by apply sublist_skip.
  - by apply sublist_cons.
Qed.

Lemma pair_group_rid_b (s : list ProcRow) :
  map rid_b (pair_group cols s) `sublist_of` map p_rowid (tail s).
Proof.
  induction s as [|a [|b s] IH]; [apply sublist_nil_l..|].
  rewrite pair_group_cons, map_app.
  destruct (within_window a b); simpl.
  - by apply sublist_skip.
  - by apply sublist_cons.
Qed.

Lemma sublist_tail {A} (l : list A) : tail l `sublist_of` l.
Proof. destruct l; [done|]. by apply sublist_cons. Qed.

Lemma partitions_rowids (df_proc : list ProcRow) :
  flat_map (λ kg, map p_rowid (sort_by le_time kg.2)) (groups cols df_proc)
  ≡ₚ map p_rowid df_proc.
Proof.
  rewrite (flat_map_concat_perm (λ g, map p_rowid (sort_by le_time g)) p_rowid).
  - unfold groups. by rewrite groupby_concat, sort_by_Permutation.
  - intros g. by rewrite sort_by_Permutation.
Qed.

Lemma length_pairs_groups (gs : list (pystr * list ProcRow)) :
  (∀ k g, (k, g) ∈ gs → g ≠ []) →
  length (flat_map (λ kg, pair_group cols (sort_by le_time kg.2)) gs)
  + length gs ≤ length (concat gs.*2).
Proof.
  induction gs as [|[k g] gs IH]; intros Hne; csimpl; [done|].
  rewrite !length_app.
  pose proof (length_pair_group cols (sort_by le_time g)) as Hle.
  rewrite length_sort_by in Hle.
  assert (length g ≠ 0) as Hg.
  { intros Hz. apply (Hne k g); [by left|]. by destruct g. }
  assert (length (flat_map (λ kg, pair_group cols (sort_by le_time kg.2)) gs)
          + length gs ≤ length (concat gs.*2)) as IH'.
  { apply IH. intros k' g' Hin. apply (Hne k' g'). by right. }
  lia.
Qed.

(** X12. No row is A of two pairs, and none is B of two pairs, so a row
    is written at most twice; and the pairs are at most the surviving
    rows less the callers among them. *)
Theorem rows_paired_once (rows : list row) (df_proc : list ProcRow) :
  make_proc cols rows = Ok df_proc →
  NoDup (map rid_a (make_pairs cols df_proc))
  ∧ NoDup (map rid_b (make_pairs cols df_proc))
  ∧ length (make_pairs cols df_proc) + length (groups cols df_proc)
    ≤ length rows.
Proof.
  intros Hok.
  assert (NoDup (flat_map (λ kg, map p_rowid (sort_by le_time kg.2))
                          (groups cols df_proc))) as Hnd.
  { rewrite partitions_rowids. by eapply make_proc_NoDup. }
  split; [|split].
  - eapply sublist_NoDup; [exact Hnd|].
    rewrite make_pairs_groups, map_flat_map.
    apply flat_map_sublist. intros kg _. apply pair_group_rid_a.
  - eapply sublist_NoDup; [exact Hnd|].
    rewrite make_pairs_groups, map_flat_map.
    apply flat_map_sublist. intros kg _.
    etransitivity; [apply pair_group_rid_b|].
    apply fmap_sublist, sublist_tail.
  - rewrite make_pairs_groups.
    etransitivity; [apply length_pairs_groups|].
    + intros k g Hin. by eapply groupby_nonempty.
    + unfold groups. rewrite groupby_concat, length_sort_by.
      by rewrite (make_proc_length _ _ _ Hok).
Qed.
End PairedOnce.

(* ================================================================== *)
(** ** Further properties: the order of the pairs *)
(* ================================================================== *)

Lemma pystr_leb_refl (s : pystr) : pystr_leb s s = true.
Proof.
  induction s as [|a s IH]; simpl; [done|].
  by rewrite N.ltb_irrefl, N.eqb_refl.
Qed.

Lemma pystr_leb_total (s t : pystr) :
  pystr_leb s t = true ∨ pystr_leb t s = true.
Proof.
  revert t. induction s as [|a s IH]; intros [|b t]; simpl; auto.
  destruct (N.ltb_spec a b), (N.ltb_spec b a), (N.eqb_spec a b),
    (N.eqb_spec b a); auto; lia.
Qed.

Lemma pystr_leb_antisym (s t : pystr) :
  pystr_leb s t = true → pystr_leb t s = true → s = t.
Proof.
  revert t. induction s as [|a s IH]; intros [|b t]; simpl; try done.
  destruct (N.ltb_spec a b), (N.ltb_spec b a), (N.eqb_spec a b),
    (N.eqb_spec b a); try done; try lia.
  intros Hst Hts. subst. f_equal. by apply IH.
Qed.

Lemma pystr_leb_trans (s t r : pystr) :
  pystr_leb s t = true → pystr_leb t r = true → pystr_leb s r = true.
Proof.
  revert t r. induction s as [|a s IH]; intros [|b t] [|c r]; simpl; try done.
  destruct (N.ltb_spec a b), (N.ltb_spec b c), (N.ltb_spec a c),
    (N.eqb_spec a b), (N.eqb_spec b c), (N.eqb_spec a c);
    try done; try lia.
  apply IH.
Qed.

Lemma StronglySorted_sublist {A} (R : A → A → Prop) (l1 l2 : list A) :
  l1 `sublist_of` l2 → StronglySorted R l2 → StronglySorted R l1.
Proof.
  induction 1 as [|x l1 l2 Hsub IH|x l1 l2 Hsub IH]; [done|..].
  - rewrite !StronglySorted_cons. intros [Hx Hs]. split; [|by apply IH].
    by eapply Forall_sublist_of.
  - rewrite StronglySorted_cons. intros [_ Hs]. by apply IH.
Qed.

Lemma StronglySorted_seq (j n : nat) : StronglySorted lt (seq j n).
Proof.
  revert j. induction n as [|n IH]; intros j; simpl; [constructor|].
  apply StronglySorted_cons. split; [|apply IH].
  apply Forall_forall. intros i Hi%elem_of_seq. lia.
Qed.

Section Stable.
Context {A : Type} (le : A → A → bool).
Hypothesis le_trans : ∀ x y z, le x y = true → le y z = true → le x z = true.

(** Insertion does not move an element past one of equal rank. *)
Lemma insert_by_stable (z x : A) (l : list A) :
  filter (λ y, le z y = true ∧ le y z = true) (insert_by le x l)
  = filter (λ y, le z y = true ∧ le y z = true) (x :: l).
Proof.
  induction l as [|y l IH]; simpl; [done|].
  destruct (le x y) eqn:Hxy; [done|].
  rewrite (filter_cons _ y), IH, !(filter_cons _ x), (filter_cons _ y).
  destruct (decide (le z y = true ∧ le y z = true)) as [[Hzy Hyz]|];
    [|done].
  destruct (decide (le z x = true ∧ le x z = true)) as [[Hzx Hxz]|];
    [|done].
  rewrite (le_trans x z y) in Hxy by done. done.
Qed.

(** [sort_by] is stable: the elements of one rank keep their order. *)
Lemma sort_by_stable (z : A) (l : list A) :
  filter (λ y, le z y = true ∧ le y z = true) (sort_by le l)
  = filter (λ y, le z y = true ∧ le y z = true) l.
Proof.
  induction l as [|x l IH]; simpl; [done|].
  by rewrite insert_by_stable, !filter_cons, IH.
Qed.
End Stable.

Lemma StronglySorted_impl {A} (R R' : A → A → Prop) (l : list A) :
  (∀ x y, R x y → R' x y) → StronglySorted R l → StronglySorted R' l.
Proof.
  intros HR. induction 1 as [|x l Hs IH Hx]; constructor; [done|].
  eapply Forall_impl; [exact Hx|]. intros y. apply HR.
Qed.

Lemma add_to_group_keys_list {A} k (x : A) (gs : list (pystr * list A)) :
  (add_to_group k x gs).*1 = if decide (k ∈ gs.*1) then gs.*1 else gs.*1 ++ [k].
Proof.
  induction gs as [|[k0 g0] gs IH].
  - change ((add_to_group k x []).*1) with [k]. change ([].*1) with (@nil pystr).
    rewrite decide_False; [done|]. apply not_elem_of_nil.
  - change (((k0, g0) :: gs).*1) with (k0 :: gs.*1).
    cbn [add_to_group]. destruct (decide (k = k0)) as [->|Hne].
    + change (((k0, g0 ++ [x]) :: gs).*1) with (k0 :: gs.*1).
      rewrite decide_True; [done|]. by left.
    + change (((k0, g0) :: add_to_group k x gs).*1)
        with (k0 :: (add_to_group k x gs).*1).
      rewrite IH. destruct (decide (k ∈ gs.*1)) as [Hin|Hnin].
      * rewrite decide_True; [done|]. by right.
      * rewrite decide_False; [done|]. rewrite elem_of_cons. naive_solver.
Qed.

Lemma foldl_groupby_ascending {A} (key : A → pystr) (l : list A) gs :
  StronglySorted pystr_lt gs.*1 →
  (∀ k x, k ∈ gs.*1 → x ∈ l → pystr_leb k (key x) = true) →
  StronglySorted (λ x y, pystr_leb (key x) (key y) = true) l →
  StronglySorted pystr_lt (foldl (λ gs x, add_to_group (key x) x gs) gs l).*1.
Proof.
  revert gs. induction l as [|x l IH]; intros gs Hgs Hle Hl; simpl; [done|].
  apply StronglySorted_cons in Hl as [Hx Hl]. rewrite Forall_forall in Hx.
  apply IH; [| |done].
  - rewrite add_to_group_keys_list. destruct (decide _) as [|Hnin]; [done|].
    apply StronglySorted_app_2; [|done|repeat constructor].
    intros k1 k2 Hk1 ->%list_elem_of_singleton. split.
    + apply Hle; [done|by left].
    + intros ->. done.
  - intros k y Hk Hy. rewrite add_to_group_keys_list in Hk.
    assert (k ∈ gs.*1 ∨ k = key x) as [Hk'| ->].
    { destruct (decide _); [by left|].
      apply elem_of_app in Hk as [?|?%list_elem_of_singleton]; auto. }
    + apply Hle; [done|by right].
    + by apply Hx.
Qed.

Section Order.
Variable cols : list pystr.

Lemma le_time_trans (x y z : ProcRow) :
  le_time x y = true → le_time y z = true → le_time x z = true.
Proof. unfold le_time. lia. Qed.

Lemma le_time_equiv (x y : ProcRow) :
  le_time x y = true ∧ le_time y x = true ↔ p_time y = p_time x.
Proof. unfold le_time. lia. Qed.

Lemma le_caller_time_total (x y : ProcRow) :
  le_caller_time cols x y = true ∨ le_caller_time cols y x = true.
Proof.
  unfold le_caller_time.
  destruct (decide (caller cols x = caller cols y)) as [Heq|Hne].
  - rewrite decide_True by done. apply le_time_total.
  - rewrite decide_False by done. apply pystr_leb_total.
Qed.

Lemma le_caller_time_trans (x y z : ProcRow) :
  le_caller_time cols x y = true → le_caller_time cols y z = true →
  le_caller_time cols x z = true.
Proof.
  unfold le_caller_time.
  destruct (decide (caller cols x = caller cols y)) as [Hxy|Hxy],
    (decide (caller cols y = caller cols z)) as [Hyz|Hyz],
    (decide (caller cols x = caller cols z)) as [Hxz|Hxz];
    try congruence.
  - apply le_time_trans.
  - intros H1 H2. destruct Hxy. apply pystr_leb_antisym; [done|].
    by rewrite Hxz.
  - apply pystr_leb_trans.
Qed.

Lemma le_caller_time_equiv (x y : ProcRow) :
  le_caller_time cols x y = true ∧ le_caller_time cols y x = true ↔
  caller cols y = caller cols x ∧ p_time y = p_time x.
Proof.
  unfold le_caller_time.
  destruct (decide (caller cols x = caller cols y)) as [Hxy|Hxy].
  - rewrite decide_True by done. rewrite le_time_equiv. naive_solver.
  - rewrite decide_False by done. split; [|naive_solver].
    intros [H1 H2]. destruct Hxy. by apply pystr_leb_antisym.
Qed.

Lemma le_caller_time_caller (x y : ProcRow) :
  le_caller_time cols x y = true →
  pystr_leb (caller cols x) (caller cols y) = true.
Proof.
  unfold le_caller_time. destruct (decide _) as [->|]; [|done].
  intros _. apply pystr_leb_refl.
Qed.

(** X13. The caller partitions are visited in strictly ascending order
    of the caller number, compared by code points; the pairs of a run
    are those of the partitions, in that order. *)
Theorem partitions_ascending (df_proc : list ProcRow) :
  StronglySorted pystr_lt (groups cols df_proc).*1
  ∧ make_pairs cols df_proc
    = flat_map (λ kg, pair_group cols (sort_by le_time kg.2))
               (groups cols df_proc).
Proof.
  split; [|done]. unfold groups, groupby.
  apply foldl_groupby_ascending; [constructor| |].
  - intros k x Hk. by apply elem_of_nil in Hk.
  - apply (StronglySorted_impl (λ x y, le_caller_time cols x y = true));
      [apply le_caller_time_caller|].
    apply Sorted.Sorted_StronglySorted.
    + intros x y z. apply le_caller_time_trans.
    + apply sort_by_Sorted, le_caller_time_total.
Qed.
End Order.

Lemma lookup_neighbours {A} (l : list A) i a b :
  l !! i = Some a → l !! (i + 1) = Some b → ∃ l1 l2, l = l1 ++ a :: b :: l2.
Proof.
  revert i. induction l as [|x l IH]; intros [|i] Ha Hb; simplify_eq/=.
  - destruct l as [|y l]; simplify_eq/=. by exists [], l.
  - destruct (IH i Ha Hb) as (l1 & l2 & ->). by exists (x :: l1), l2.
Qed.

Section Ties.
Context `{DatetimeParser}.
Variable cols : list pystr.

(** The calls of a caller that start at one instant stand in the sorted
    partition in the order of the table. *)
Lemma partition_ties (df_proc : list ProcRow) k g (a : ProcRow) :
  (k, g) ∈ groups cols df_proc →
  caller cols a = k →
  filter (λ y, p_time y = p_time a) (sort_by le_time g)
  = filter (λ y, caller cols y = k ∧ p_time y = p_time a) df_proc.
Proof.
  intros Hg Hk. apply groupby_elem in Hg as ->.
  rewrite (list_filter_iff (λ y, p_time y = p_time a)
             (λ y, le_time a y = true ∧ le_time y a = true))
    by (intros y; by rewrite le_time_equiv).
  rewrite (sort_by_stable le_time le_time_trans).
  rewrite list_filter_filter.
  rewrite (list_filter_iff _
             (λ y, le_caller_time cols a y = true ∧ le_caller_time cols y a = true)).
  - rewrite (sort_by_stable _ (le_caller_time_trans cols)).
    apply list_filter_iff. intros y. rewrite le_caller_time_equiv. naive_solver.
  - intros y. rewrite le_caller_time_equiv, le_time_equiv. naive_solver.
Qed.

Lemma partition_ties_order (rows : list row) (df_proc : list ProcRow) k g i a b :
  make_proc cols rows = Ok df_proc →
  (k, g) ∈ groups cols df_proc →
  sort_by le_time g !! i = Some a →
  sort_by le_time g !! (i + 1) = Some b →
  p_time a = p_time b →
  p_rowid a < p_rowid b.
Proof.
  intros Hok Hg Ha Hb Ht.
  assert (caller cols a = k) as Hk.
  { eapply (groups_sorted_elem cols df_proc k g a Hg).
    by eapply list_elem_of_lookup_2. }
  pose proof (partition_ties df_proc k g a Hg Hk) as Hf.
  destruct (lookup_neighbours _ _ _ _ Ha Hb) as (l1 & l2 & Hs).
  rewrite Hs, filter_app, !filter_cons in Hf.
  rewrite decide_True in Hf by done. rewrite decide_True in Hf by done.
  assert (StronglySorted lt
            (map p_rowid (filter (λ y, caller cols y = k ∧ p_time y = p_time a)
                                 df_proc))) as Hsorted.
  { apply (StronglySorted_sublist _ _ (map p_rowid df_proc));
      [apply fmap_sublist, sublist_filter|].
    destruct (make_proc_Ok _ _ _ Hok) as (_ & -> & _).
    apply StronglySorted_seq. }
  rewrite <- Hf, map_app in Hsorted.
  apply StronglySorted_app_1_r in Hsorted. simpl in Hsorted.
  apply StronglySorted_cons in Hsorted as [Hlt _].
  by apply Forall_cons in Hlt as [Hlt _].
Qed.

(** X14. The sort is stable: when the two calls of a pair start at the
    same instant, A is the one that stands first in the table. *)
Theorem ties_keep_table_order (rows : list row) (df_proc : list ProcRow)
    (p : Pair) (a b : ProcRow) :
  make_proc cols rows = Ok df_proc →
  p ∈ make_pairs cols df_proc →
  df_proc !! rid_a p = Some a →
  df_proc !! rid_b p = Some b →
  p_time a = p_time b →
  rid_a p < rid_b p.
Proof.
  intros Hok Hp Ha Hb Ht.
  apply elem_of_make_pairs in Hp as (k & g & i & a' & b' & Hg & Ha' & Hb' & _ & ->).
  unfold rid_a, rid_b, make_pair in *. simpl in *.
  assert (a' ∈ df_proc ∧ b' ∈ df_proc) as [Hain Hbin].
  { split; eapply (groups_sorted_elem cols df_proc k g _ Hg);
      by eapply list_elem_of_lookup_2. }
  destruct (make_proc_elem _ _ _ _ Hok Hain) as [Ha'' _].
  destruct (make_proc_elem _ _ _ _ Hok Hbin) as [Hb'' _].
  assert (a = a') as -> by congruence. assert (b = b') as -> by congruence.
  by eapply partition_ties_order.
Qed.
End Ties.

(* ================================================================== *)
(** ** Further properties: cells that read nan *)
(* ================================================================== *)

(** X15. A row is dropped when one of its four categorical cells is
    missing, or reads ["nan"] once its whitespace is removed, in any
    case of the letters: an agent called ["Nan"] is filtered out like a
    missing name. *)
Theorem nan_cells_dropped (cols : list pystr) (r : row) (c : pystr) :
  (∀ c, c ∈ REQUIRED_COLS → c ∈ cols) →
  length r = length cols →
  c ∈ CATEGORICAL_COLS →
  getcol cols c r = None
  ∨ lower (remove_whitespace (astype_str (getcol cols c r))) = u "nan" →
  getcol cols c (normalize_row cols r) = Some []
  ∧ keep cols (normalize_row cols r) = false.
Proof.
  intros Hreq Hlen Hc Hnan.
  assert (clean_text (getcol cols c r) = []) as Hempty.
  { unfold clean_text. destruct Hnan as [->|Hl]; [done|].
    by rewrite decide_True. }
  assert (getcol cols c (normalize_row cols r) = Some []) as Hcell.
  { rewrite getcol_normalize_row by auto using categorical_present.
    by rewrite normalize_cell_text, Hempty. }
  split; [done|]. apply not_true_iff_false. rewrite keep_survives.
  unfold survives, field. intros (H1 & H2 & H3 & H4 & _).
  unfold CATEGORICAL_COLS in Hc.
  rewrite !elem_of_cons in Hc. rewrite elem_of_nil in Hc.
  destruct Hc as [->|[->|[->|[->|[]]]]]; rewrite Hcell in *; done.
Qed.

(* ================================================================== *)
(** ** The further properties on the tables of the examples *)
(* ================================================================== *)

Module MoreExamples.
Import Tables.
#[local] Existing Instance Iso.parser.

Lemma clean_col_padding_witness :
  _clean_col ([32%N; 10%N] ++ COL_START ++ [12288%N; 13%N]) = COL_START.
Proof.
  apply (clean_col_padding [32%N; 10%N] COL_START [12288%N; 13%N]).
  - repeat constructor.
  - repeat constructor.
  - split; intros ch [= <-]; reflexivity.
  - repeat (constructor; [apply (bool_decide_unpack _); vm_compute; exact I|]).
    constructor.
Defined.

Lemma padded_header_accepted_witness :
  check_columns (map _clean_col header) = Ok tt.
Proof.
  apply (padded_header_accepted header). intros c Hc.
  unfold REQUIRED_COLS in Hc.
  repeat (apply elem_of_cons in Hc as [->|Hc]);
    [exists [32%N], [10%N]|exists [], [12288%N]|exists [], []..|
     by apply elem_of_nil in Hc];
    (split; [repeat constructor|]); (split; [repeat constructor|]);
    apply (bool_decide_unpack _); vm_compute; exact I.
Defined.

Lemma caller_prefix_dropped_witness :
  caller_of cols (normalize_row cols
    (call "2024-03-01 09:00:00" "TEL:13800000000" "A" "B" "801" "Li" "first"))
  = u "13800000000"
  ∧ caller_of cols (normalize_row cols
      (call "2024-03-01 09:00:00" "13800000000" "A" "A" "801" "Li" "second"))
    = u "13800000000".
Proof.
  destruct (caller_prefix_dropped cols
    (call "2024-03-01 09:00:00" "TEL:13800000000" "A" "B" "801" "Li" "first")
    (call "2024-03-01 09:00:00" "13800000000" "A" "A" "801" "Li" "second")
    (u "TEL:") (u "13800000000")) as (_ & _ & H1 & H2).
  - apply (bool_decide_unpack _). vm_compute. exact I.
  - reflexivity.
  - reflexivity.
  - repeat constructor.
  - split; intros ch [= <-]; reflexivity.
  - intros ch [= <-]. reflexivity.
  - reflexivity.
  - reflexivity.
  - by split.
Defined.

Lemma caller_letters_empty_witness :
  caller_of cols (normalize_row cols
    [Some (u "2024-03-01 09:00:00"); None; Some (u "A"); Some (u "A");
     Some (u "801"); Some (u "Li"); None]) = [].
Proof.
  apply (caller_letters_empty cols).
  - apply (bool_decide_unpack _). vm_compute. exact I.
  - reflexivity.
  - vm_compute. repeat constructor.
Defined.

Lemma nan_cells_dropped_witness :
  keep cols (normalize_row cols
    (call "2024-03-01 09:00:00" "13800000000" "A" "A" "801" "N a n" "")) = false.
Proof.
  apply (nan_cells_dropped cols _ COL_NAME).
  - intros c Hc. unfold cols. apply elem_of_app. by left.
  - reflexivity.
  - apply (bool_decide_unpack _). vm_compute. exact I.
  - right. vm_compute. reflexivity.
Defined.

Lemma process_excel_outcome_witness :
  (∃ out, process_excel three_calls = Ok out)
  ∧ process_excel bad_time = Err (ValueError time_message)
  ∧ process_excel no_start_no_name ≠ Err IndexError.
Proof.
  destruct (process_excel_outcome three_calls) as (_ & Hok & _ & _);
    [apply (bool_decide_unpack _); vm_compute; exact I
    |vm_compute; reflexivity|].
  destruct (process_excel_outcome bad_time) as (_ & _ & Htime & _);
    [apply (bool_decide_unpack _); vm_compute; exact I
    |vm_compute; reflexivity|].
  destruct (process_excel_outcome no_start_no_name) as (Hidx & _);
    [apply (bool_decide_unpack _); vm_compute; exact I
    |vm_compute; reflexivity|].
  split; [|split; [|exact Hidx]].
  - apply Hok. split.
    + intros c Hc. apply (bool_decide_unpack _).
      repeat (apply elem_of_cons in Hc as [->|Hc]; [vm_compute; exact I|]).
      by apply elem_of_nil in Hc.
    + vm_compute. repeat constructor; by eexists.
  - apply Htime. split.
    + intros c Hc. apply (bool_decide_unpack _).
      repeat (apply elem_of_cons in Hc as [->|Hc]; [vm_compute; exact I|]).
      by apply elem_of_nil in Hc.
    + exists 1. vm_compute. reflexivity.
Defined.

Lemma export_layout_witness :
  ∃ out, process_rows cols (values three_calls) = Ok out
    ∧ length (values (out_nc out)) = 2 ∧ length (values (out_c out)) = 2
    ∧ values (out_c out) !! 0 = df_str_of three_calls !! 3
    ∧ values (out_c out) !! 1 = df_str_of three_calls !! 0.
Proof.
  destruct (export_layout cols (values three_calls) (df_proc_of three_calls))
    as (out & Hout & _ & _ & Hlay);
    [apply (bool_decide_unpack _); vm_compute; exact I
    |vm_compute; reflexivity|vm_compute; reflexivity|].
  exists out. split; [done|].
  destruct (Hlay LABEL_SAME (values (out_nc out))) as [Hn _]; [by left|].
  destruct (Hlay LABEL_CROSS (values (out_c out))) as [Hc Hrows]; [by right|].
  split; [rewrite Hn; vm_compute; reflexivity|].
  split; [rewrite Hc; vm_compute; reflexivity|].
  destruct (Hrows 0 (LABEL_CROSS, 3, 0)) as (H0 & H1 & _ & _);
    [vm_compute; reflexivity|].
  split; [exact H0|exact H1].
Defined.

Lemma written_rows_survive_witness :
  field cols COL_ANSWERED
    (call "2024-03-01 10:00:00" "13800000000" "AB" "A" "801" "Li" "x y") ≠ []
  ∧ field cols COL_INBOUND
      (call "2024-03-01 10:00:00" "13800000000" "AB" "A" "801" "Li" "x y")
    ≠ EXCLUDE_GROUP.
Proof.
  destruct (written_rows_survive cols (values prefixed)
    (mkOutput
       (mkDataFrame cols
          [call "2024-03-01 10:00:00" "13800000000" "AB" "A" "801" "Li" "x y";
           call "2024-03-01 11:00:00" "13800000000" "A" "AB" "801" "Li" " z"])
       (mkDataFrame cols []) (1, 0))
    (call "2024-03-01 10:00:00" "13800000000" "AB" "A" "801" "Li" "x y"))
    as (_ & _ & Ha & _ & _ & Hx).
  - apply (bool_decide_unpack _). vm_compute. exact I.
  - vm_compute. reflexivity.
  - vm_compute. reflexivity.
  - left. simpl. left.
  - by split.
Defined.

Lemma written_rows_other_cells_witness :
  ∃ r0, r0 ∈ values prefixed
    ∧ getcol cols COL_START
        (call "2024-03-01 10:00:00" "13800000000" "AB" "A" "801" "Li" "x y")
      = getcol cols COL_START r0
    ∧ getcol cols (u "备注")
        (call "2024-03-01 10:00:00" "13800000000" "AB" "A" "801" "Li" "x y")
      = getcol cols (u "备注") r0.
Proof.
  destruct (written_rows_other_cells cols (values prefixed)
    (mkOutput
       (mkDataFrame cols
          [call "2024-03-01 10:00:00" "13800000000" "AB" "A" "801" "Li" "x y";
           call "2024-03-01 11:00:00" "13800000000" "A" "AB" "801" "Li" " z"])
       (mkDataFrame cols []) (1, 0))
    (call "2024-03-01 10:00:00" "13800000000" "AB" "A" "801" "Li" "x y"))
    as (r0 & Hin & _ & _ & Hlabel & Hstart).
  - apply (bool_decide_unpack _). vm_compute. exact I.
  - vm_compute. reflexivity.
  - vm_compute. reflexivity.
  - left. simpl. left.
  - exists r0. split; [done|]. split; [done|].
    apply Hlabel. apply (bool_decide_unpack _). vm_compute. exact I.
Defined.

Lemma pairs_within_caller_witness :
  ∃ ra rb, df_str_of three_calls !! 1 = Some ra
           ∧ df_str_of three_calls !! 3 = Some rb
           ∧ caller_of cols ra = caller_of cols rb.
Proof.
  destruct (pairs_within_caller cols (df_str_of three_calls)
              (df_proc_of three_calls) (LABEL_SAME, 1, 3))
    as (_ & ra & rb & Ha & Hb & Hc);
    [vm_compute; reflexivity|vm_compute; left|].
  by exists ra, rb.
Defined.

Lemma rows_paired_once_witness :
  length (make_pairs cols (df_proc_of three_calls))
  + length (groups cols (df_proc_of three_calls)) ≤ 4.
Proof.
  destruct (rows_paired_once cols (df_str_of three_calls) (df_proc_of three_calls))
    as (_ & _ & Hle); [vm_compute; reflexivity|].
  exact Hle.
Defined.

Lemma ties_keep_table_order_witness :
  make_pairs cols (df_proc_of tied_calls)
  = [(LABEL_SAME, 1, 2); (LABEL_SAME, 0, 3)]
  ∧ rid_a (LABEL_SAME, 1, 2) < rid_b (LABEL_SAME, 1, 2).
Proof.
  split; [vm_compute; reflexivity|].
  apply (ties_keep_table_order cols (df_str_of tied_calls) (df_proc_of tied_calls)
           (LABEL_SAME, 1, 2)
           (mkProcRow (call "2024-03-01 09:00:00" "13800000000" "A" "B" "801" "Li" "first")
              1709283600000000000 1)
           (mkProcRow (call "2024-03-01 09:00:00" "13800000000" "A" "A" "801" "Li" "second")
              1709283600000000000 2)).
  - vm_compute. reflexivity.
  - vm_compute. left.
  - vm_compute. reflexivity.
  - vm_compute. reflexivity.
  - reflexivity.
Defined.
End MoreExamples.
